(** * yookassa-sdk-go: request dispatch and polymorphic decoding

    A shallow embedding of the parts of the SDK that decide how requests are
    dispatched (package [yookassa]), how an [Item] is serialised (package
    [yoocommon]) and how the untyped fields of a [Payment] are resolved into
    typed variants (package [yoopayment]), together with the properties
    proved about them.

    Go strings are byte sequences and are modelled by [string]; a byte is
    read as a [Z] in [0, 255]; [rune] and [int] values are [Z]; Go maps are
    [gmap]s. *)

From Stdlib Require Import ZArith String Ascii List Lia Bool.
From Stdlib Require Import Floats.SpecFloat.
From stdpp Require Import base option list gmap strings sorting.

#[local] Set Warnings "-register-all".
#[local] Open Scope string_scope.
#[local] Open Scope Z_scope.

(** ** Results and errors *)

(** The [error] values the code builds.  [errorString] is what [fmt.Errorf]
    returns for a format without [%w] and what libraries return for a plain
    message; [wrapError] is what [fmt.Errorf] returns for a format with
    [%w]: [msg] is the whole text and [err] the wrapped operand. *)
Inductive error : Type :=
| errorString (s : string)
| wrapError (msg : string) (err : error).

Definition Error (e : error) : string :=
  match e with
  | errorString s => s
  | wrapError msg _ => msg
  end.

(** What a library call with the signature [(T, error)] returns: a value
    with a nil error, or a non-nil error (its value is then nil or zero). *)
Inductive result (A : Type) : Type :=
| Ok (a : A)
| Err (e : error).
Arguments Ok {A} a.
Arguments Err {A} e.

Definition bind {A B} (r : result A) (k : A -> result B) : result B :=
  match r with
  | Ok a => k a
  | Err e => Err e
  end.

Definition from_result {A} (d : A) (r : result A) : A :=
  match r with
  | Ok a => a
  | Err _ => d
  end.

(** How a call ends: it returns, or it panics.  A function of the SDK with
    the signature [(T, error)] returns a pair whose second component is
    [None] for a nil error. *)
Inductive outcome (A : Type) : Type :=
| Returns (a : A)
| Panics (msg : string).
Arguments Returns {A} a.
Arguments Panics {A} msg.

(** ** Bytes of a string *)

Definition byte_of_ascii (a : ascii) : Z := Z.of_N (N_of_ascii a).
Definition ascii_of_byte (b : Z) : ascii := ascii_of_N (Z.to_N b).

Definition bytes (s : string) : list Z := List.map byte_of_ascii (list_ascii_of_string s).
Definition string_of_bytes (l : list Z) : string :=
  string_of_list_ascii (List.map ascii_of_byte l).

Definition is_byte (b : Z) : Prop := 0 <= b < 256.

(** ** unicode/utf8 and the string/rune conversions of the runtime *)

Module utf8.

Definition RuneError : Z := 0xFFFD.
Definition RuneSelf : Z := 0x80.
Definition MaxRune : Z := 0x10FFFF.
Definition surrogateMin : Z := 0xD800.
Definition surrogateMax : Z := 0xDFFF.

Definition t1 : Z := 0x00.
Definition tx : Z := 0x80.
Definition t2 : Z := 0xC0.
Definition t3 : Z := 0xE0.
Definition t4 : Z := 0xF0.
Definition maskx : Z := 0x3F.
Definition mask2 : Z := 0x1F.
Definition mask3 : Z := 0x0F.
Definition mask4 : Z := 0x07.
Definition rune1Max : Z := 0x7F.
Definition rune2Max : Z := 0x7FF.
Definition rune3Max : Z := 0xFFFF.
Definition locb : Z := 0x80.
Definition hicb : Z := 0xBF.

(** Codes of the [first] table: the low three bits are the length of the
    sequence, the high four bits index [acceptRanges]. *)
Definition xx : Z := 0xF1.
Definition as_ : Z := 0xF0.
Definition s1 : Z := 0x02.
Definition s2 : Z := 0x13.
Definition s3 : Z := 0x03.
Definition s4 : Z := 0x23.
Definition s5 : Z := 0x34.
Definition s6 : Z := 0x04.
Definition s7 : Z := 0x44.

(** [first[c]]: information about the first byte of a sequence. *)
Definition first (c : Z) : Z :=
  if c <? 0x80 then as_
  else if c <? 0xC2 then xx
  else if c <? 0xE0 then s1
  else if c =? 0xE0 then s2
  else if c <? 0xED then s3
  else if c =? 0xED then s4
  else if c <? 0xF0 then s3
  else if c =? 0xF0 then s5
  else if c <? 0xF4 then s6
  else if c =? 0xF4 then s7
  else xx.

(** [acceptRanges[i]]: the bounds [lo, hi] of the second byte. *)
Definition acceptRanges (i : Z) : Z * Z :=
  match i with
  | 0 => (locb, hicb)
  | 1 => (0xA0, hicb)
  | 2 => (locb, 0x9F)
  | 3 => (0x90, hicb)
  | 4 => (locb, 0x8F)
  | _ => (0, 0)
  end.

(** [DecodeRuneInString]: the first rune of [s] and its width in bytes.  An
    invalid or truncated sequence yields [(RuneError, 1)], the empty string
    [(RuneError, 0)].  [nth i s 0] is [s[i]]; every index is guarded by the
    length test as in the source. *)
Definition DecodeRune (s : list Z) : Z * nat :=
  let n := Z.of_nat (length s) in
  if n <? 1 then (RuneError, 0%nat)
  else
    let s0 := nth 0 s 0 in
    let x := first s0 in
    if as_ <=? x then
      (* mask := rune(x) << 31 >> 31: all ones exactly when bit 0 of x is set *)
      (if Z.testbit x 0 then RuneError else s0, 1%nat)
    else
      let sz := Z.land x 7 in
      let accept := acceptRanges (Z.shiftr x 4) in
      if n <? sz then (RuneError, 1%nat)
      else
        let s1 := nth 1 s 0 in
        if (s1 <? fst accept) || (snd accept <? s1) then (RuneError, 1%nat)
        else if sz <=? 2 then
          (Z.lor (Z.shiftl (Z.land s0 mask2) 6) (Z.land s1 maskx), 2%nat)
        else
          let s2 := nth 2 s 0 in
          if (s2 <? locb) || (hicb <? s2) then (RuneError, 1%nat)
          else if sz <=? 3 then
            (Z.lor (Z.lor (Z.shiftl (Z.land s0 mask3) 12)
                          (Z.shiftl (Z.land s1 maskx) 6))
                   (Z.land s2 maskx), 3%nat)
          else
            let s3 := nth 3 s 0 in
            if (s3 <? locb) || (hicb <? s3) then (RuneError, 1%nat)
            else
              (Z.lor (Z.lor (Z.lor (Z.shiftl (Z.land s0 mask4) 18)
                                   (Z.shiftl (Z.land s1 maskx) 12))
                            (Z.shiftl (Z.land s2 maskx) 6))
                     (Z.land s3 maskx), 4%nat).

(** The width the loop of [RuneCountInString] advances by at the head of
    [s] (the body of the loop, [s] being [s[i:]]). *)
Definition countStep (s : list Z) : nat :=
  let ns := Z.of_nat (length s) in
  let c := nth 0 s 0 in
  if c <? RuneSelf then 1%nat
  else
    let x := first c in
    if x =? xx then 1%nat
    else
      let size := Z.land x 7 in
      if ns <? size then 1%nat
      else
        let accept := acceptRanges (Z.shiftr x 4) in
        let c1 := nth 1 s 0 in
        if (c1 <? fst accept) || (snd accept <? c1) then 1%nat
        else if size =? 2 then 2%nat
        else
          let c2 := nth 2 s 0 in
          if (c2 <? locb) || (hicb <? c2) then 1%nat
          else if size =? 3 then 3%nat
          else
            let c3 := nth 3 s 0 in
            if (c3 <? locb) || (hicb <? c3) then 1%nat
            else Z.to_nat size.

(** The loop [for i := 0; i < ns; n++ { ...; i += size }]: [skip] is the
    number of bytes left before the next sequence starts. *)
Fixpoint countLoop (skip : nat) (s : list Z) (n : Z) : Z :=
  match s with
  | [] => n
  | _ :: t =>
    match skip with
    | S k => countLoop k t n
    | O => countLoop (countStep s - 1) t (n + 1)
    end
  end.

Definition RuneCountInString (s : string) : Z := countLoop 0 (bytes s) 0.

(** [[]rune(s)]: the runes a [range] loop over [s] yields. *)
Fixpoint runesLoop (skip : nat) (s : list Z) : list Z :=
  match s with
  | [] => []
  | _ :: t =>
    match skip with
    | S k => runesLoop k t
    | O => let '(r, size) := DecodeRune s in r :: runesLoop (size - 1) t
    end
  end.

Definition runes (s : string) : list Z := runesLoop 0 (bytes s).

(** [encoderune]: the UTF-8 encoding of [r]; a surrogate or a value outside
    [0, MaxRune] is encoded as [RuneError].  [byte(v)] keeps the low eight
    bits of [v]. *)
Definition byte (v : Z) : Z := Z.land v 0xFF.

Definition encode3 (r : Z) : list Z :=
  [Z.lor t3 (byte (Z.shiftr r 12));
   Z.lor tx (Z.land (byte (Z.shiftr r 6)) maskx);
   Z.lor tx (Z.land (byte r) maskx)].

Definition EncodeRune (r : Z) : list Z :=
  if (0 <=? r) && (r <=? rune1Max) then [byte r]
  else if (0 <=? r) && (r <=? rune2Max) then
    [Z.lor t2 (byte (Z.shiftr r 6)); Z.lor tx (Z.land (byte r) maskx)]
  else if (r <? 0) || (MaxRune <? r) || ((surrogateMin <=? r) && (r <=? surrogateMax)) then
    encode3 RuneError
  else if r <=? rune3Max then encode3 r
  else
    [Z.lor t4 (byte (Z.shiftr r 18));
     Z.lor tx (Z.land (byte (Z.shiftr r 12)) maskx);
     Z.lor tx (Z.land (byte (Z.shiftr r 6)) maskx);
     Z.lor tx (Z.land (byte r) maskx)].

(** [string(rs)] for a rune slice [rs]. *)
Definition string_of_runes (rs : list Z) : string :=
  string_of_bytes (concat (List.map EncodeRune rs)).

(** [ValidString]: no position decodes to an encoding error. *)
Fixpoint validLoop (skip : nat) (s : list Z) : bool :=
  match s with
  | [] => true
  | _ :: t =>
    match skip with
    | S k => validLoop k t
    | O =>
      let '(r, size) := DecodeRune s in
      if (r =? RuneError) && (Nat.eqb size 1) then false
      else validLoop (size - 1) t
    end
  end.

Definition ValidString (s : string) : bool := validLoop 0 (bytes s).

(** A Unicode scalar value: a code point that is not a surrogate. *)
Definition scalar (r : Z) : Prop :=
  0 <= r <= MaxRune /\ ~ (surrogateMin <= r <= surrogateMax).

(** The entry of [first] for a byte, by the range the byte lies in. *)
Inductive first_class (c : Z) : Z -> Prop :=
| fc_as : 0 <= c < 0x80 -> first_class c as_
| fc_xx : 0x80 <= c < 0xC2 \/ 0xF5 <= c < 256 -> first_class c xx
| fc_s1 : 0xC2 <= c < 0xE0 -> first_class c s1
| fc_s2 : c = 0xE0 -> first_class c s2
| fc_s3 : 0xE1 <= c < 0xED \/ 0xEE <= c < 0xF0 -> first_class c s3
| fc_s4 : c = 0xED -> first_class c s4
| fc_s5 : c = 0xF0 -> first_class c s5
| fc_s6 : 0xF1 <= c < 0xF4 -> first_class c s6
| fc_s7 : c = 0xF4 -> first_class c s7.

(** What a string becomes in an encoded JSON text and back: every byte that
    is not part of a valid sequence is replaced by U+FFFD. *)
Definition ToValid (s : string) : string := string_of_runes (runes s).

End utf8.

(** ** Dynamic values and encoding/json *)

Module json.

(** The abstract syntax of a JSON text.  A string member holds the decoded
    characters (escapes resolved), so it is always valid UTF-8 when it
    comes from [Marshal]. *)
Inductive number : Type :=
| Int (z : Z)
| Float (f : spec_float).

Inductive value : Type :=
| Null
| Bool (b : bool)
| Number (n : number)
| String (s : string)
| Array (l : list value)
| Object (members : list (string * value)).

End json.

(** A value held in an [interface{}] ([any]): what a JSON decode without a
    target type stores (nil, bool, float64, string, []interface{},
    map[string]interface{}), or a value of any other dynamic type, given by
    the name [%T] prints for it and by what [json.Marshal] makes of it. *)
Inductive any : Type :=
| ANil
| ABool (b : bool)
| AFloat64 (f : spec_float)
| AString (s : string)
| ASlice (l : list any)
| AMap (m : gmap string any)
| AOther (T : string) (enc : result json.value).

(** The text of [fmt.Sprintf("%T", a)]. *)
Definition typeName (a : any) : string :=
  match a with
  | ANil => "<nil>"
  | ABool _ => "bool"
  | AFloat64 _ => "float64"
  | AString _ => "string"
  | ASlice _ => "[]interface {}"
  | AMap _ => "map[string]interface {}"
  | AOther T _ => T
  end.

Module Import encoding.

(** [mapM] for [result]: the first failure in list order wins. *)
Fixpoint sequence {A} (l : list (result A)) : result (list A) :=
  match l with
  | [] => Ok []
  | r :: rs => bind r (fun a => bind (sequence rs) (fun l' => Ok (a :: l')))
  end.

(** Map keys are written in the order of [strings.Compare]. *)
Definition key_le {A} (x y : string * A) : Prop := String.leb x.1 y.1 = true.
#[export] Instance key_le_dec {A} (x y : string * A) : Decision (key_le x y).
Proof. unfold key_le. apply _. Defined.

Definition sortedEntries {A} (m : gmap string A) : list (string * A) :=
  merge_sort key_le (map_to_list m).

Definition UnsupportedValueError (str : string) : error :=
  errorString ("json: unsupported value: " ++ str).

(** [json.Marshal] on a dynamic value.  NaN and the infinities are
    rejected; strings and map keys are coerced to valid UTF-8; map members
    are written in key order. *)
Fixpoint Marshal (a : any) : result json.value :=
  match a with
  | ANil => Ok json.Null
  | ABool b => Ok (json.Bool b)
  | AFloat64 f =>
    match f with
    | S754_nan => Err (UnsupportedValueError "NaN")
    | S754_infinity false => Err (UnsupportedValueError "+Inf")
    | S754_infinity true => Err (UnsupportedValueError "-Inf")
    | _ => Ok (json.Number (json.Float f))
    end
  | AString s => Ok (json.String (utf8.ToValid s))
  | ASlice l => bind (sequence (List.map Marshal l)) (fun js => Ok (json.Array js))
  | AMap m =>
    bind (sequence (List.map (fun kv : string * result json.value =>
                                bind kv.2 (fun j => Ok (utf8.ToValid kv.1, j)))
                             (sortedEntries (Marshal <$> m))))
         (fun ms => Ok (json.Object ms))
  | AOther _ enc => enc
  end.

(** *** Decoding into a struct *)

(** A struct type as the decoder sees it: its name and its fields, each with
    the key of its [json] tag.  The fields are of kind string (which
    includes named string types) or bool; tags are ASCII and carry no
    [string] option. *)
Inductive Kind : Type := KString | KBool.

Record Field : Type := {
  Name : string;      (* the key in the json tag *)
  FKind : Kind;
  GoType : string;    (* the name of the field's type *)
}.

Record StructType : Type := {
  TypeName : string;  (* as [%T] prints it, e.g. yoopayment.SBP *)
  ShortName : string; (* the name without the package *)
  Fields : list Field;
}.

Inductive FieldValue : Type :=
| VString (s : string)
| VBool (b : bool).

(** A value of a struct type: the values of its fields, in order. *)
Abbreviation Struct := (list FieldValue).

Definition zeroValue (k : Kind) : FieldValue :=
  match k with
  | KString => VString ""
  | KBool => VBool false
  end.

Definition zero (T : StructType) : Struct := List.map (fun f => zeroValue (FKind f)) (Fields T).

#[export] Instance Kind_eq_dec : EqDecision Kind.
Proof. solve_decision. Defined.
#[export] Instance Field_eq_dec : EqDecision Field.
Proof. solve_decision. Defined.
#[export] Instance StructType_eq_dec : EqDecision StructType.
Proof. solve_decision. Defined.
#[export] Instance FieldValue_eq_dec : EqDecision FieldValue.
Proof. solve_decision. Defined.

(** [foldRune]: the least rune of the case-folding orbit of [r].  Only the
    Kelvin sign and the long s have an ASCII letter in their orbit; any
    other rune beyond ASCII folds to a rune beyond ASCII and is kept as it
    is, which changes no comparison with an ASCII name. *)
Definition foldRune (r : Z) : Z :=
  if r =? 0x212A then 0x4B
  else if r =? 0x17F then 0x53
  else r.

(** [foldName]: ASCII letters in upper case, other runes folded. *)
Fixpoint foldLoop (skip : nat) (s : list Z) : list Z :=
  match s with
  | [] => []
  | c :: t =>
    match skip with
    | S k => foldLoop k t
    | O =>
      if c <? utf8.RuneSelf then
        (if (0x61 <=? c) && (c <=? 0x7A) then c - 0x20 else c) :: foldLoop 0 t
      else
        let '(r, n) := utf8.DecodeRune s in
        utf8.EncodeRune (foldRune r) ++ foldLoop (n - 1) t
    end
  end.

Definition foldName (s : string) : string := string_of_bytes (foldLoop 0 (bytes s)).

(** The field a key of the input selects: an exact match of the name, or
    else the first field whose name matches under case folding. *)
Definition findField (fields : list Field) (key : string) : option (nat * Field) :=
  match list_find (fun f => Name f = key) fields with
  | Some x => Some x
  | None => list_find (fun f => foldName (Name f) = foldName key) fields
  end.

(** Whether a key of the input selects the field at index [i]. *)
Definition selects (fields : list Field) (i : nat) (key : string) : bool :=
  match findField fields key with
  | Some (i', _) => Nat.eqb i' i
  | None => false
  end.

Definition UnmarshalTypeError (Value : string) (T : StructType) (f : Field) : error :=
  errorString ("json: cannot unmarshal " ++ Value ++ " into Go struct field "
               ++ ShortName T ++ "." ++ Name f ++ " of type " ++ GoType f).

(** What storing a JSON value into a field does: set it, leave it (null), or
    record a type error that names the kind of JSON value. *)
Inductive stored : Type :=
| Set_ (v : FieldValue)
| Keep
| Mismatch (Value : string).

Definition store (k : Kind) (j : json.value) : stored :=
  match j, k with
  | json.Null, _ => Keep
  | json.Bool b, KBool => Set_ (VBool b)
  | json.Bool _, _ => Mismatch "bool"
  | json.String s, KString => Set_ (VString s)
  | json.String _, _ => Mismatch "string"
  | json.Number _, _ => Mismatch "number"
  | json.Array _, _ => Mismatch "array"
  | json.Object _, _ => Mismatch "object"
  end.

(** The decoder state: the struct being filled and the first error saved. *)
Definition decodeMember (T : StructType) (st : Struct * option error)
    (kv : string * json.value) : Struct * option error :=
  match findField (Fields T) kv.1 with
  | None => st
  | Some (i, f) =>
    match store (FKind f) kv.2 with
    | Set_ v => (<[i := v]> st.1, st.2)
    | Keep => st
    | Mismatch what =>
      (st.1, match st.2 with
             | None => Some (UnmarshalTypeError what T f)
             | Some e => Some e
             end)
    end
  end.

Definition valueKind (j : json.value) : string :=
  match j with
  | json.Null => "null"
  | json.Bool _ => "bool"
  | json.Number _ => "number"
  | json.String _ => "string"
  | json.Array _ => "array"
  | json.Object _ => "object"
  end.

(** [json.Unmarshal(data, &result)] for a [result] of struct type [T] that
    holds [init]: members are stored in the order of the text; unknown keys
    are skipped; the first type error saved is returned at the end. *)
Definition Unmarshal (T : StructType) (data : json.value) (init : Struct) : result Struct :=
  match data with
  | json.Object members =>
    let '(v, saved) := foldl (decodeMember T) (init, None) members in
    match saved with
    | None => Ok v
    | Some e => Err e
    end
  | json.Null => Ok init
  | _ => Err (errorString ("json: cannot unmarshal " ++ valueKind data
                           ++ " into Go value of type " ++ TypeName T))
  end.

(** *** Mappings shaped as a struct *)

Definition isASCII (s : string) : bool := forallb (fun c => c <? 0x80) (bytes s).

(** A struct declaration as the decoder above assumes it: the names of the
    tags are ASCII and pairwise distinct, also under case folding. *)
Definition wfStruct (T : StructType) : bool :=
  forallb (fun f => isASCII (Name f)) (Fields T)
  && bool_decide (NoDup ((fun f => foldName (Name f)) <$> Fields T)).

(** The dynamic value that holds what a field holds. *)
Definition toAny (v : FieldValue) : any :=
  match v with
  | VString s => AString s
  | VBool b => ABool b
  end.

(** What the field [f] of a struct decoded from the mapping [m] is to hold:
    the value of the member named as the field, or the zero value. *)
Definition expected (m : gmap string any) (f : Field) : FieldValue :=
  match m !! Name f with
  | Some (AString s) => VString s
  | Some (ABool b) => VBool b
  | _ => zeroValue (FKind f)
  end.

(** A dynamic value of the kind of a field: a string of valid UTF-8 (what a
    JSON decode yields; the encoder leaves it as it is) for a string field,
    a bool for a bool field. *)
Definition fits (k : Kind) (v : any) : bool :=
  match k, v with
  | KString, AString s => utf8.ValidString s
  | KBool, ABool _ => true
  | _, _ => false
  end.

(** A generic mapping shaped as the struct [T]: every value can be encoded,
    and a key that selects a field of [T] is the name of that field and
    holds a value of its kind.  Other keys are free. *)
Definition shapedMember (T : StructType) (k : string) (v : any) : bool :=
  match Marshal v with Ok _ => true | Err _ => false end
  && match findField (Fields T) (utf8.ToValid k) with
     | Some (_, f) => bool_decide (k = Name f) && fits (FKind f) v
     | None => true
     end.

Definition shapedAs (T : StructType) (m : gmap string any) : bool :=
  bool_decide (map_Forall (fun k v => shapedMember T k v = true) m).

(** The member of an object with a given key (the first one). *)
Definition member (key : string) (j : json.value) : option json.value :=
  match j with
  | json.Object members => snd <$> (snd <$> list_find (fun kv => kv.1 = key) members)
  | _ => None
  end.

End encoding.

(** ** Package yoocommon: item.go *)

Module yoocommon.

Section Item.

(** [Amount] is declared in a file of the package that is not verified
    here: its values and the encoding [json.Marshal] gives them are
    parameters. *)
Variable AmountStruct : Type.
Variable Amount_Marshal : AmountStruct -> result json.value.

Record Item : Type := {
  Description : string;
  Quantity : Z;
  Amount : option AmountStruct;   (* *Amount, [None] when nil *)
  VatCode : Z;
  Measure : string;
  PaymentSubject : string;
  PaymentMode : string;
}.

Definition MAX_DESCRIPTION_LENGTH : Z := 128.

Definition with_Description (u : Item) (d : string) : Item :=
  {| Description := d; Quantity := Quantity u; Amount := Amount u;
     VatCode := VatCode u; Measure := Measure u;
     PaymentSubject := PaymentSubject u; PaymentMode := PaymentMode u |}.

(** A string member with the [omitempty] option. *)
Definition omitempty (key s : string) : list (string * json.value) :=
  if decide (s = "") then [] else [(key, json.String (utf8.ToValid s))].

(** [json.Marshal(Alias(u))]: [Alias] has the fields and tags of [Item]
    and no method, so the struct is encoded field by field. *)
Definition Marshal_Alias (u : Item) : result json.value :=
  bind (match Amount u with
        | None => Ok json.Null
        | Some a => Amount_Marshal a
        end)
       (fun amount =>
          Ok (json.Object
                ([("description", json.String (utf8.ToValid (Description u)));
                  ("quantity", json.Number (json.Int (Quantity u)));
                  ("amount", amount);
                  ("vat_code", json.Number (json.Int (VatCode u)))]
                 ++ omitempty "measure" (Measure u)
                 ++ omitempty "payment_subject" (PaymentSubject u)
                 ++ omitempty "payment_mode" (PaymentMode u)))).

(** [runes[:n]]: panics when [n] exceeds the length of the slice. *)
Definition slice_to (runes : list Z) (n : Z) : outcome (list Z) :=
  if (0 <=? n) && (n <=? Z.of_nat (length runes)) then Returns (take (Z.to_nat n) runes)
  else Panics "runtime error: slice bounds out of range".

Definition MarshalJSON (u : Item) : outcome (result json.value) :=
  let truncated := u in
  if MAX_DESCRIPTION_LENGTH <? utf8.RuneCountInString (Description u) then
    let runes := utf8.runes (Description u) in
    match slice_to runes MAX_DESCRIPTION_LENGTH with
    | Panics msg => Panics msg
    | Returns prefix =>
      let truncated := with_Description truncated (utf8.string_of_runes prefix) in
      Returns (Marshal_Alias truncated)
    end
  else Returns (Marshal_Alias truncated).

(** The amount of the item, when there is one, can be encoded. *)
Definition amount_encodes (u : Item) : Prop :=
  forall a, Amount u = Some a -> exists j, Amount_Marshal a = Ok j.

End Item.

End yoocommon.

(** ** Package yoopayment: payment.go *)

Module yoopayment.

(** Modelled from the spec: the declarations of the payment-method
    variants are in a file of the package that is not verified here.  The
    spec gives the variant set: base method, card-bearing method,
    fast-payment-system method; the names are those of the accessors. *)
Inductive Variant : Type := BasePaymentMethod | PaymentMethodWithCard | SBP.

(** Modelled from the spec: the constant is missing; the tag of the
    fast-payment-system variant is [sbp]. *)
Definition PaymentTypeSBP : string := "sbp".

(** Modelled from the spec: the declaration of the struct is missing; the
    variants share the discriminator [payment_method.type], a string, which
    the source reads as the field [Type] of the embedded [paymentMethod]. *)
Definition Type_field : Field :=
  {| Name := "type"; FKind := KString; GoType := "yoopayment.PaymentMethodType" |}.

Definition variantName (V : Variant) : string :=
  match V with
  | BasePaymentMethod => "BasePaymentMethod"
  | PaymentMethodWithCard => "PaymentMethodWithCard"
  | SBP => "SBP"
  end.

(** A value of the interface [PaymentMethoder]: a struct held by value, a
    pointer to a struct ([None] when nil), or a value of another dynamic
    type. *)
Inductive PaymentMethoder : Type :=
| Value (T : StructType) (v : Struct)
| Pointer (T : StructType) (p : option Struct)
| Dynamic (a : any).

(** The text of [fmt.Sprintf("%T", pm)]. *)
Definition dynamicType (pm : PaymentMethoder) : string :=
  match pm with
  | Value T _ => TypeName T
  | Pointer T _ => "*" ++ TypeName T
  | Dynamic a => typeName a
  end.

(** The fields of [Payment] that hold untyped values; the others are plain
    data no function below reads. *)
Record Payment : Type := {
  PaymentMethod : PaymentMethoder;
  Confirmation : any;
  Metadata : any;
}.

(** The discriminator [v.paymentMethod.Type] of a variant value: the first
    field of every variant. *)
Definition Type_ (v : Struct) : string :=
  match v !! 0%nat with
  | Some (VString s) => s
  | _ => ""
  end.

Definition GetConfirmationToken (p : Payment) : string * option error :=
  match Confirmation p with
  | AMap m =>
    match m !! "confirmation_token" with
    | None => ("", Some (errorString "confirmation_token not found in confirmation map"))
    | Some raw =>
      match raw with
      | AString token =>
        if decide (token = "") then ("", Some (errorString "confirmation_token is empty"))
        else (token, None)
      | _ => ("", Some (errorString ("confirmation_token is not a string, got "
                                     ++ typeName raw)))
      end
    end
  | _ => ("", Some (errorString "confirmation is not a map"))
  end.

Definition GetInvoiceIdFromMetadata (p : Payment) : string * option error :=
  match Metadata p with
  | AMap m =>
    match m !! "invoice_id" with
    | None => ("", Some (errorString "invoice_id not found in metadata map"))
    | Some raw =>
      match raw with
      | AString id =>
        if decide (id = "") then ("", Some (errorString "invoice_id is empty"))
        else (id, None)
      | _ => ("", Some (errorString ("invoice_id is not a string, got " ++ typeName raw)))
      end
    end
  | _ => ("", Some (errorString ("metadata is not a map[string]any, got "
                                 ++ typeName (Metadata p))))
  end.

(** The cases of the type switch, in the order of the source. *)
Definition case_pointer (T : StructType) (pm : PaymentMethoder) : option (option Struct) :=
  match pm with
  | Pointer T' p => if decide (T' = T) then Some p else None
  | _ => None
  end.

Definition case_value (T : StructType) (pm : PaymentMethoder) : option Struct :=
  match pm with
  | Value T' v => if decide (T' = T) then Some v else None
  | _ => None
  end.

Definition case_map (pm : PaymentMethoder) : option (gmap string any) :=
  match pm with
  | Dynamic (AMap m) => Some m
  | _ => None
  end.

Definition convertPaymentMethod (T : StructType) (pm : PaymentMethoder)
  : outcome (Struct * option error) :=
  let zero := zero T in
  match case_pointer T pm with
  | Some v =>
    match v with
    | Some x => Returns (x, None)
    | None => Panics "runtime error: invalid memory address or nil pointer dereference"
    end
  | None =>
    match case_value T pm with
    | Some v => Returns (v, None)
    | None =>
      match case_map pm with
      | Some v =>
        match Marshal (AMap v) with
        | Err err =>
          Returns (zero, Some (wrapError ("failed to marshal map: " ++ Error err) err))
        | Ok jsonData =>
          match Unmarshal T jsonData (encoding.zero T) with
          | Err err =>
            Returns (zero, Some (wrapError ("failed to unmarshal to " ++ TypeName T
                                            ++ ": " ++ Error err) err))
          | Ok result => Returns (result, None)
          end
        end
      | None =>
        Returns (zero, Some (errorString ("unsupported payment method type: "
                                          ++ dynamicType pm)))
      end
    end
  end.

(** *** The two mechanisms as the spec words them *)

(** Scalar extraction in the words of the spec: the value must be a generic
    mapping, the named key present, its value a string, and the string
    non-empty; each step has a failure of its own. *)
Inductive extraction : Type :=
| NotAMapping (a : any)
| FieldMissing
| FieldTypeMismatch (raw : any)
| FieldEmpty
| Extracted (s : string).

Definition extract (key : string) (a : any) : extraction :=
  match a with
  | AMap m =>
    match m !! key with
    | None => FieldMissing
    | Some (AString s) => if decide (s = "") then FieldEmpty else Extracted s
    | Some raw => FieldTypeMismatch raw
    end
  | _ => NotAMapping a
  end.

(** Variant resolution in the words of the spec: try the exact type match,
    then the pointer-dereference match, then decode from the mapping, else
    fail with the unsupported source shape. *)
Definition decodeMapping (T : StructType) (m : gmap string any) : Struct * option error :=
  match Marshal (AMap m) with
  | Err err => (zero T, Some (wrapError ("failed to marshal map: " ++ Error err) err))
  | Ok data =>
    match Unmarshal T data (zero T) with
    | Err err => (zero T, Some (wrapError ("failed to unmarshal to " ++ TypeName T
                                           ++ ": " ++ Error err) err))
    | Ok result => (result, None)
    end
  end.

Definition resolve_in_spec_order (T : StructType) (pm : PaymentMethoder)
  : outcome (Struct * option error) :=
  match case_value T pm with
  | Some v => Returns (v, None)
  | None =>
    match case_pointer T pm with
    | Some (Some v) => Returns (v, None)
    | Some None => Panics "runtime error: invalid memory address or nil pointer dereference"
    | None =>
      match case_map pm with
      | Some m => Returns (decodeMapping T m)
      | None => Returns (zero T, Some (errorString ("unsupported payment method type: "
                                                    ++ dynamicType pm)))
      end
    end
  end.

(** A value that is none of the three shapes the resolver accepts. *)
Definition unsupported (T : StructType) (pm : PaymentMethoder) : bool :=
  match case_value T pm, case_pointer T pm, case_map pm with
  | None, None, None => true
  | _, _, _ => false
  end.

Section Variants.

(** The fields a variant declares besides the discriminator: the
    declarations are missing, so they are a parameter. *)
Variable declared : Variant -> list Field.

Definition structType (V : Variant) : StructType :=
  {| TypeName := "yoopayment." ++ variantName V;
     ShortName := variantName V;
     Fields := Type_field :: declared V |}.

Definition GetBasePaymentMethod (p : Payment) : outcome (Struct * option error) :=
  convertPaymentMethod (structType BasePaymentMethod) (PaymentMethod p).

Definition GetPaymentMethodWithCard (p : Payment) : outcome (Struct * option error) :=
  convertPaymentMethod (structType PaymentMethodWithCard) (PaymentMethod p).

(** [fmt.Println(a, b)]: the operands separated by a space, then a
    newline. *)
Definition Println (a b : string) : string := a ++ " " ++ b ++ String "010" "".

(** The second component is what the call writes to the standard
    output. *)
Definition GetPaymentMethodSbp (p : Payment)
  : outcome (Struct * option error) * list string :=
  match convertPaymentMethod (structType SBP) (PaymentMethod p) with
  | Panics msg => (Panics msg, [])
  | Returns (sbp, Some err) => (Returns (sbp, Some err), [])
  | Returns (sbp, None) =>
    let stdout := [Println "ALE" (Type_ sbp)] in
    if decide (Type_ sbp <> PaymentTypeSBP) then
      (Returns (sbp, Some (errorString ("payment method is not SBP, got " ++ Type_ sbp))),
       stdout)
    else (Returns (sbp, None), stdout)
  end.

End Variants.

End yoopayment.

(** ** Struct values and the mappings that hold them *)

Module shapes.
Import yoopayment.

(** The generic mapping a JSON decode without a target type yields for the
    encoding of the struct value [v]: one member for each field, under the
    name of its tag. *)
Definition asMapping (T : StructType) (v : Struct) : gmap string any :=
  list_to_map (zip (Name <$> Fields T) (toAny <$> v)).

(** A value of the struct type [T]: one value for each field, of the kind of
    the field, its strings valid UTF-8. *)
Definition wellTyped (T : StructType) (v : Struct) : bool :=
  Nat.eqb (length v) (length (Fields T))
  && forallb (fun fx : Field * FieldValue => fits (FKind fx.1) (toAny fx.2))
             (zip (Fields T) v).

(** Whether [json.Marshal] accepts a value. *)
Definition encodable (v : any) : bool :=
  match Marshal v with Ok _ => true | Err _ => false end.

End shapes.

(** ** github.com/google/uuid *)

Module uuid.

Definition hexdigit (n : Z) : ascii :=
  match String.get (Z.to_nat n) "0123456789abcdef" with
  | Some a => a
  | None => "0"%char
  end.

(** [hex.Encode]: two digits for each byte. *)
Fixpoint hex (l : list Z) : string :=
  match l with
  | [] => ""
  | b :: t => String (hexdigit (Z.shiftr b 4)) (String (hexdigit (Z.land b 0x0F)) (hex t))
  end.

(** [encodeHex]: xxxxxxxx-xxxx-xxxx-xxxx-xxxxxxxxxxxx. *)
Definition String_ (u : list Z) : string :=
  hex (take 4 u) ++ "-" ++ hex (take 2 (drop 4 u)) ++ "-" ++ hex (take 2 (drop 6 u))
  ++ "-" ++ hex (take 2 (drop 8 u)) ++ "-" ++ hex (drop 10 u).

(** [io.ReadFull] on a source that ends after fewer bytes than asked for:
    [io.EOF] when no byte was read, [io.ErrUnexpectedEOF] when some were. *)
Definition ReadFull_error (rand : list Z) : error :=
  errorString (if (length rand =? 0)%nat then "EOF" else "unexpected EOF").

(** [NewRandom]: sixteen bytes read from the random source [rand], with
    the version (4) and variant (10) bits set.  It fails, with the error of
    [io.ReadFull], when the source cannot deliver sixteen bytes.  The
    second component is what is left of the source. *)
Definition NewRandom (rand : list Z) : result (list Z) * list Z :=
  if (length rand <? 16)%nat then (Err (ReadFull_error rand), [])
  else
    let u := take 16 rand in
    let u := <[6%nat := Z.lor (Z.land (nth 6 u 0) 0x0F) 0x40]> u in
    let u := <[8%nat := Z.lor (Z.land (nth 8 u 0) 0x3F) 0x80]> u in
    (Ok u, drop 16 rand).

(** [NewString]: [Must(NewRandom()).String()]. *)
Definition NewString (rand : list Z) : outcome string * list Z :=
  match NewRandom rand with
  | (Ok u, rand') => (Returns (String_ u), rand')
  | (Err e, rand') => (Panics (Error e), rand')
  end.

End uuid.

(** ** net/http *)

Module http.

Definition MethodGet : string := "GET".
Definition MethodHead : string := "HEAD".
Definition MethodPost : string := "POST".
Definition MethodPut : string := "PUT".
Definition MethodPatch : string := "PATCH".
Definition MethodDelete : string := "DELETE".
Definition MethodConnect : string := "CONNECT".
Definition MethodOptions : string := "OPTIONS".
Definition MethodTrace : string := "TRACE".

(** The methods of net/http whose requests change state on the server:
    POST, PUT, PATCH and DELETE (the others are safe in the sense of
    RFC 9110, 9.2.1, or establish a tunnel). *)
Definition stateMutating (method : string) : bool :=
  bool_decide (method ∈ [MethodPost; MethodPut; MethodPatch; MethodDelete]).

(** The characters of an HTTP token. *)
Definition isTokenByte (c : Z) : bool :=
  ((0x30 <=? c) && (c <=? 0x39)) || ((0x41 <=? c) && (c <=? 0x5A))
  || ((0x61 <=? c) && (c <=? 0x7A))
  || bool_decide (c ∈ [0x21; 0x23; 0x24; 0x25; 0x26; 0x27; 0x2A; 0x2B; 0x2D; 0x2E;
                       0x5E; 0x5F; 0x60; 0x7C; 0x7E]).

Definition validMethod (method : string) : bool :=
  negb (String.eqb method "") && forallb isTokenByte (bytes method).

(** [textproto.CanonicalMIMEHeaderKey]: the first letter and the letters
    after a hyphen in upper case, the others in lower case; a key with a
    byte that is not a token character is returned as it is. *)
Fixpoint canonical (upper : bool) (l : list Z) : list Z :=
  match l with
  | [] => []
  | c :: t =>
    let c' := if upper && (0x61 <=? c) && (c <=? 0x7A) then c - 0x20
              else if negb upper && (0x41 <=? c) && (c <=? 0x5A) then c + 0x20
              else c in
    c' :: canonical (c' =? 0x2D) t
  end.

Definition CanonicalMIMEHeaderKey (s : string) : string :=
  if forallb isTokenByte (bytes s) then string_of_bytes (canonical true (bytes s)) else s.

Abbreviation Header := (gmap string (list string)).

Definition Header_Set (h : Header) (key value : string) : Header :=
  <[CanonicalMIMEHeaderKey key := [value]]> h.

Definition Header_Get (h : Header) (key : string) : string :=
  match h !! CanonicalMIMEHeaderKey key with
  | Some (v :: _) => v
  | _ => ""
  end.

(** Whether a header is on the request at all. *)
Definition Header_has (h : Header) (key : string) : bool :=
  bool_decide (is_Some (h !! CanonicalMIMEHeaderKey key)).

(** [base64.StdEncoding.EncodeToString]. *)
Definition b64digit (n : Z) : ascii :=
  match String.get (Z.to_nat n)
          "ABCDEFGHIJKLMNOPQRSTUVWXYZabcdefghijklmnopqrstuvwxyz0123456789+/" with
  | Some a => a
  | None => "="%char
  end.

Fixpoint base64 (l : list Z) : string :=
  match l with
  | [] => ""
  | [a] =>
    String (b64digit (Z.shiftr a 2))
      (String (b64digit (Z.shiftl (Z.land a 3) 4)) "==")
  | [a; b] =>
    String (b64digit (Z.shiftr a 2))
      (String (b64digit (Z.lor (Z.shiftl (Z.land a 3) 4) (Z.shiftr b 4)))
         (String (b64digit (Z.shiftl (Z.land b 0x0F) 2)) "="))
  | a :: b :: c :: t =>
    String (b64digit (Z.shiftr a 2))
      (String (b64digit (Z.lor (Z.shiftl (Z.land a 3) 4) (Z.shiftr b 4)))
         (String (b64digit (Z.lor (Z.shiftl (Z.land b 0x0F) 2) (Z.shiftr c 6)))
            (String (b64digit (Z.land c 0x3F)) (base64 t))))
  end.

Definition basicAuth (username password : string) : string :=
  base64 (bytes (username ++ ":" ++ password)).

(** A request; [U] is the type of parsed URLs. *)
Record Request (U : Type) : Type := {
  Method : string;
  URL : U;
  Head : Header;
  Body : list Z;
}.
Arguments Method {U} _.
Arguments URL {U} _.
Arguments Head {U} _.
Arguments Body {U} _.

Definition with_Header {U} (r : Request U) (h : Header) : Request U :=
  {| Method := Method r; URL := URL r; Head := h; Body := Body r |}.

Definition with_URL {U} (r : Request U) (u : U) : Request U :=
  {| Method := Method r; URL := u; Head := Head r; Body := Body r |}.

Definition SetBasicAuth {U} (r : Request U) (username password : string) : Request U :=
  with_Header r (Header_Set (Head r) "Authorization"
                            ("Basic " ++ basicAuth username password)).

End http.

(** ** Package yookassa: the client, its dispatcher and the operation handler *)

Module yookassa.

(** What the dispatcher uses of net/url, fmt, strconv and of the transport
    below [http.Client]. *)
Record Library : Type := {
  Response : Type;
  Url : Type;
  url_Parse : string -> result Url;               (* url.Parse *)
  Query : Url -> gmap string (list string);       (* u.Query() *)
  set_RawQuery : Url -> string -> Url;            (* u.RawQuery = s *)
  Encode : gmap string (list string) -> string;   (* url.Values.Encode *)
  Sprint : any -> string;                         (* fmt.Sprintf("%v", v) *)
  Quote : string -> string;                       (* fmt.Sprintf("%q", s) *)
  Do : http.Request Url -> result Response;       (* http.Client.Do *)
}.

Definition BaseURL : string := "https://api.yookassa.ru/v3/".

Record Client : Type := {
  accountId : string;
  secretKey : string;
}.

Definition NewClient (accountId secretKey : string) : Client :=
  {| accountId := accountId; secretKey := secretKey |}.

(** The header of a request the dispatcher hands to the transport: the
    Basic authentication always, the content type and the idempotency key
    for the method POST only. *)
Definition sent_header (c : Client) (method token : string) : http.Header :=
  <["Authorization" := ["Basic " ++ http.basicAuth (accountId c) (secretKey c)]]>
    (if String.eqb method http.MethodPost
     then <["Idempotence-Key" := [token]]> (<["Content-Type" := ["application/json"]]> ∅)
     else ∅).

Section Dispatch.

Context (lib : Library).

Abbreviation Request := (http.Request (Url lib)).

(** What a call acts on besides its arguments: the random source read by
    [uuid] and the log of the requests handed to the transport. *)
Record World : Type := {
  rand : list Z;
  sent : list Request;
}.

(** [http.NewRequest]: the method defaults to GET, must be a token, and
    the URL must parse; the new request has no header. *)
Definition NewRequest (method url : string) (body : list Z) : result Request :=
  let method := if String.eqb method "" then "GET" else method in
  if negb (http.validMethod method) then
    Err (errorString ("net/http: invalid method " ++ Quote lib method))
  else
    match url_Parse lib url with
    | Err e => Err e
    | Ok u => Ok {| http.Method := method; http.URL := u; http.Head := ∅; http.Body := body |}
    end.

(** [q.Add(name, value)] for every entry of [params]; the names are
    distinct, so the order of the iteration does not matter. *)
Definition addParams (q : gmap string (list string)) (params : gmap string any)
  : gmap string (list string) :=
  map_fold (fun paramName paramVal q =>
              <[paramName := (default [] (q !! paramName) ++ [Sprint lib paramVal])%list]> q)
           q params.

(** The receiver [c] is a [*Client]: [None] is the nil pointer, whose fields
    cannot be read. *)
Definition makeRequest (c : option Client) (method endpoint : string) (body : list Z)
    (params : option (gmap string any)) (idempotencyKey : string) (w : World)
  : outcome (option (Response lib) * option error) * World :=
  let uri := BaseURL ++ endpoint in
  match NewRequest method uri body with
  | Err err => (Returns (None, Some err), w)
  | Ok req =>
    let '(generated, rand') :=
      if String.eqb idempotencyKey "" then uuid.NewString (rand w)
      else (Returns idempotencyKey, rand w) in
    let w := {| rand := rand'; sent := sent w |} in
    match generated with
    | Panics msg => (Panics msg, w)
    | Returns idempotencyKey =>
      let req :=
        if String.eqb method http.MethodPost then
          let h := http.Header_Set (http.Head req) "Content-Type" "application/json" in
          let h := http.Header_Set h "Idempotence-Key" idempotencyKey in
          http.with_Header req h
        else req in
      match c with
      | None =>
        (Panics "runtime error: invalid memory address or nil pointer dereference", w)
      | Some c =>
        let req := http.SetBasicAuth req (accountId c) (secretKey c) in
        let req :=
          match params with
          | Some params =>
            let q := Query lib (http.URL req) in
            let q := addParams q params in
            http.with_URL req (set_RawQuery lib (http.URL req) (Encode lib q))
          | None => req
          end in
        let w := {| rand := rand w; sent := (sent w ++ [req])%list |} in
        match Do lib req with
        | Err err => (Returns (None, Some err), w)
        | Ok resp => (Returns (Some resp, None), w)
        end
      end
    end
  end.

End Dispatch.

(** *** The operation handler and its test *)

(** The handler as [TestIdempotencyKey] uses it: it is made from a client
    and has the field [idempotencyKey]; the test reads no other field. *)
Record PaymentHandler : Type := {
  client : option Client;
  idempotencyKey : string;
}.

Definition with_idempotencyKey (p : PaymentHandler) (key : string) : PaymentHandler :=
  {| client := client p; idempotencyKey := key |}.

(** The handlers of a run.  A [*PaymentHandler] is the index of its handler
    in the store: two pointers to one handler share it, and a copy of a
    handler is another entry. *)
Abbreviation Heap := (list PaymentHandler).

Section Handler.

(** [NewPaymentHandler] and [SetIdempotencyKey] are declared in files of the
    package that are not among the sources; only their test is.  They are
    parameters here: each may read and update the store of handlers, and
    yields the handler it returns. *)
Variable NewPaymentHandler : option Client -> Heap -> nat * Heap.
Variable SetIdempotencyKey : nat -> string -> Heap -> nat * Heap.

(** [TestIdempotencyKey]: the messages the test reports through
    [t.Errorf]; it passes when there is none.  The handler returned by the
    first call of [SetIdempotencyKey] is dropped, as in the source; reading
    a field through a pointer that is not in the store panics. *)
Definition TestIdempotencyKey (rand : list Z) (h : Heap) : outcome (list string) :=
  match uuid.NewString rand with
  | (Panics msg, _) => Panics msg
  | (Returns key, _) =>
    let '(paymentHandler, h) := NewPaymentHandler None h in
    let '(_, h) := SetIdempotencyKey paymentHandler key h in
    match h !! paymentHandler with
    | None => Panics "runtime error: invalid memory address or nil pointer dereference"
    | Some x =>
      let e1 := if String.eqb (idempotencyKey x) key
                then ["Wrong behaviour of idempotency key: " ++ key] else [] in
      let e2 := if negb (String.eqb (idempotencyKey x) "")
                then ["Idempotency key must be set only for one request"] else [] in
      let h := <[paymentHandler := with_idempotencyKey x ""]> h in
      let '(returned, h) := SetIdempotencyKey paymentHandler key h in
      match h !! returned, h !! paymentHandler with
      | Some y, Some x =>
        let e3 := if negb (String.eqb (idempotencyKey y) key)
                  then ["Wrong behaviour of idempotency key: " ++ key] else [] in
        let e4 := if negb (String.eqb (idempotencyKey x) "")
                  then ["Idempotency key must be set only for one request"] else [] in
        Returns (e1 ++ e2 ++ e3 ++ e4)%list
      | _, _ => Panics "runtime error: invalid memory address or nil pointer dereference"
      end
    end
  end.

End Handler.

End yookassa.

(** ** Sample inputs *)

Module samples.
Import yoopayment yookassa.

(** Variant declarations with the fields [id], [saved] and [title] next to
    the discriminator. *)
Definition fields (V : Variant) : list Field :=
  [ {| Name := "id"; FKind := KString; GoType := "string" |};
    {| Name := "saved"; FKind := KBool; GoType := "bool" |};
    {| Name := "title"; FKind := KString; GoType := "string" |} ].

(** [{"type": "bank_card", "id": "pm-1", "saved": true}]. *)
Definition bank_card : gmap string any :=
  <["type" := AString "bank_card"]> (<["id" := AString "pm-1"]> (<["saved" := ABool true]> ∅)).

Definition payment (pm : PaymentMethoder) (confirmation metadata : any) : Payment :=
  {| PaymentMethod := pm; Confirmation := confirmation; Metadata := metadata |}.

(** An item whose description is 65 times the two characters U+00E9 and
    U+20AC: 130 code points in 325 bytes. *)
Definition long_description : string :=
  string_of_bytes (concat (replicate 65 [0xC3; 0xA9; 0xE2; 0x82; 0xAC])).

(** A description of 128 code points in 320 bytes. *)
Definition full_description : string :=
  string_of_bytes (concat (replicate 64 [0xC3; 0xA9; 0xE2; 0x82; 0xAC])).

Definition item : yoocommon.Item unit :=
  {| yoocommon.Description := long_description; yoocommon.Quantity := 1;
     yoocommon.Amount := None; yoocommon.VatCode := 1; yoocommon.Measure := "";
     yoocommon.PaymentSubject := ""; yoocommon.PaymentMode := "" |}.

(** A library whose URLs are the text of the URL with its raw query, and
    whose transport answers every request. *)
Definition library : Library :=
  {| Response := unit;
     Url := string * string;
     url_Parse := fun s => Ok (s, "");
     Query := fun _ => ∅;
     set_RawQuery := fun u q => (u.1, q);
     Encode := fun _ => "";
     Sprint := fun _ => "";
     Quote := fun s => s;
     Do := fun _ => Ok tt |}.

Definition world : World library :=
  {| rand := [0x10; 0x32; 0x54; 0x76; 0x98; 0xBA; 0xDC; 0xFE;
              0x01; 0x23; 0x45; 0x67; 0x89; 0xAB; 0xCD; 0xEF; 0x00];
     sent := [] |}.

Definition shop : Client := NewClient "shop" "secret".

(** A handler that [TestIdempotencyKey] accepts.  The constructor allocates
    a handler with an empty slot.  [SetIdempotencyKey] has a value receiver:
    it works on a copy of the handler, stores the key in the copy when the
    slot of the copy is empty, and returns a pointer to the copy. *)
Definition NewPaymentHandler (c : option Client) (h : Heap) : nat * Heap :=
  (length h, (h ++ [{| client := c; idempotencyKey := "" |}])%list).

Definition SetIdempotencyKey (p : nat) (key : string) (h : Heap) : nat * Heap :=
  match h !! p with
  | Some x =>
    (length h,
     (h ++ [if String.eqb (idempotencyKey x) "" then with_idempotencyKey x key else x])%list)
  | None => (p, h)
  end.

(** Modelled from the spec: [SetKey(key)] stores [key] in the handler when
    its slot is empty, leaves a populated slot as it is, and returns the
    handler itself, not a copy. *)
Definition SetKey (p : nat) (key : string) (h : Heap) : nat * Heap :=
  match h !! p with
  | Some x =>
    (p, if String.eqb (idempotencyKey x) "" then <[p := with_idempotencyKey x key]> h else h)
  | None => (p, h)
  end.

End samples.

(** * Properties *)

(** ** UTF-8: decoding what was encoded, and counting runes *)

Module utf8_facts.
Import utf8.

Lemma lor_shifted (a b k : Z) :
  0 <= k -> 0 <= b < 2 ^ k -> Z.lor (a * 2 ^ k) b = a * 2 ^ k + b.
Proof.
  intros Hk Hb.
  rewrite <- (Zbitwise.Z.add_lor_land (a * 2 ^ k) b).
  assert (Z.land (a * 2 ^ k) b = 0) as ->; [|lia].
  apply Z.bits_inj'. intros i Hi.
  rewrite Z.land_spec, Z.bits_0.
  destruct (Z.lt_ge_cases i k) as [Hlt|Hge].
  - rewrite Z.mul_pow2_bits_low by lia. reflexivity.
  - destruct (Z.eq_dec b 0) as [->|Hnz].
    + rewrite Z.bits_0. apply andb_false_r.
    + rewrite (Z.bits_above_log2 b i); [apply andb_false_r|lia|].
      assert (Z.log2 b < k) by (apply Z.log2_lt_pow2; lia). lia.
Qed.

Lemma land_mask (x k : Z) : 0 <= k -> Z.land x (2 ^ k - 1) = x mod 2 ^ k.
Proof.
  intros Hk. rewrite <- Z.land_ones by assumption.
  rewrite Z.ones_equiv. rewrite <- Z.sub_1_r. reflexivity.
Qed.

Lemma byte_mod x : byte x = x mod 256.
Proof. unfold byte. apply (land_mask x 8). lia. Qed.
Lemma land_3F x : Z.land x 63 = x mod 64.
Proof. apply (land_mask x 6). lia. Qed.
Lemma land_1F x : Z.land x 31 = x mod 32.
Proof. apply (land_mask x 5). lia. Qed.
Lemma land_0F x : Z.land x 15 = x mod 16.
Proof. apply (land_mask x 4). lia. Qed.
Lemma land_7 x : Z.land x 7 = x mod 8.
Proof. apply (land_mask x 3). lia. Qed.
Lemma shiftr_6 x : Z.shiftr x 6 = x / 64.
Proof. apply (Z.shiftr_div_pow2 x 6). lia. Qed.
Lemma shiftr_12 x : Z.shiftr x 12 = x / 4096.
Proof. apply (Z.shiftr_div_pow2 x 12). lia. Qed.
Lemma shiftr_18 x : Z.shiftr x 18 = x / 262144.
Proof. apply (Z.shiftr_div_pow2 x 18). lia. Qed.
Lemma shiftl_6 x : Z.shiftl x 6 = x * 2 ^ 6.
Proof. apply (Z.shiftl_mul_pow2 x 6). lia. Qed.
Lemma shiftl_12 x : Z.shiftl x 12 = x * 2 ^ 12.
Proof. apply (Z.shiftl_mul_pow2 x 12). lia. Qed.
Lemma shiftl_18 x : Z.shiftl x 18 = x * 2 ^ 18.
Proof. apply (Z.shiftl_mul_pow2 x 18). lia. Qed.

Lemma lor_tx y : 0 <= y < 64 -> Z.lor 128 y = 128 + y.
Proof. intros. apply (lor_shifted 2 y 6); lia. Qed.
Lemma lor_t2 y : 0 <= y < 32 -> Z.lor 192 y = 192 + y.
Proof. intros. apply (lor_shifted 3 y 6); lia. Qed.
Lemma lor_t3 y : 0 <= y < 16 -> Z.lor 224 y = 224 + y.
Proof. intros. apply (lor_shifted 14 y 4); lia. Qed.
Lemma lor_t4 y : 0 <= y < 8 -> Z.lor 240 y = 240 + y.
Proof. intros. apply (lor_shifted 30 y 3); lia. Qed.

Lemma assemble2 a b : 0 <= b < 64 -> Z.lor (Z.shiftl a 6) b = a * 64 + b.
Proof. intros. rewrite shiftl_6. apply (lor_shifted a b 6); lia. Qed.
Lemma assemble3 a b c : 0 <= b < 64 -> 0 <= c < 64 ->
  Z.lor (Z.lor (Z.shiftl a 12) (Z.shiftl b 6)) c = a * 4096 + b * 64 + c.
Proof.
  intros. rewrite shiftl_12, shiftl_6.
  rewrite (lor_shifted a (b * 2 ^ 6) 12) by lia.
  replace (a * 2 ^ 12 + b * 2 ^ 6) with ((a * 64 + b) * 2 ^ 6) by lia.
  rewrite (lor_shifted _ c 6) by lia. lia.
Qed.
Lemma assemble4 a b c d : 0 <= b < 64 -> 0 <= c < 64 -> 0 <= d < 64 ->
  Z.lor (Z.lor (Z.lor (Z.shiftl a 18) (Z.shiftl b 12)) (Z.shiftl c 6)) d
  = a * 262144 + b * 4096 + c * 64 + d.
Proof.
  intros. rewrite shiftl_18, shiftl_12, shiftl_6.
  rewrite (lor_shifted a (b * 2 ^ 12) 18) by lia.
  replace (a * 2 ^ 18 + b * 2 ^ 12) with ((a * 64 + b) * 2 ^ 12) by lia.
  rewrite (lor_shifted _ (c * 2 ^ 6) 12) by lia.
  replace ((a * 64 + b) * 2 ^ 12 + c * 2 ^ 6) with (((a * 64 + b) * 64 + c) * 2 ^ 6) by lia.
  rewrite (lor_shifted _ d 6) by lia. lia.
Qed.

Ltac zlia := Z.div_mod_to_equations; lia.

Ltac bool_to_prop H :=
  repeat first
    [ rewrite andb_true_iff in H | rewrite orb_true_iff in H
    | rewrite andb_false_iff in H | rewrite orb_false_iff in H
    | rewrite Z.leb_le in H | rewrite Z.ltb_lt in H | rewrite Z.eqb_eq in H
    | rewrite Z.leb_gt in H | rewrite Z.ltb_ge in H | rewrite Z.eqb_neq in H ].

Ltac case_if :=
  match goal with
  | |- (if ?c then _ else _) = _ =>
    let C := fresh "C" in
    destruct c eqn:C; bool_to_prop C; try (exfalso; zlia)
  end.
Ltac case_ifs := repeat case_if.
Ltac case_if_ctx :=
  match goal with
  | |- context [if ?c then _ else _] =>
    let C := fresh "C" in
    destruct c eqn:C; bool_to_prop C; try (exfalso; zlia)
  end.

Ltac unfold_consts :=
  cbv [RuneError RuneSelf MaxRune surrogateMin surrogateMax t1 tx t2 t3 t4
       maskx mask2 mask3 mask4 rune1Max rune2Max rune3Max locb hicb] in *.

Ltac to_arith :=
  rewrite ?byte_mod, ?shiftr_6, ?shiftr_12, ?shiftr_18, ?land_3F, ?land_1F, ?land_0F, ?land_7.

Lemma first_classify c : is_byte c -> first_class c (first c).
Proof.
  unfold is_byte, first. intros.
  repeat case_if_ctx; constructor; lia.
Qed.

Lemma nth_is_byte (l : list Z) i : Forall is_byte l -> is_byte (nth i l 0).
Proof.
  intros Hl. revert i. induction Hl; intros [|i]; cbn; auto; unfold is_byte; lia.
Qed.

Lemma EncodeRune_1 r : 0 <= r <= 0x7F -> EncodeRune r = [r].
Proof.
  intros. unfold EncodeRune. unfold_consts. case_ifs.
  to_arith. f_equal. zlia.
Qed.
Lemma EncodeRune_2 r : 0x80 <= r <= 0x7FF ->
  EncodeRune r = [192 + r / 64; 128 + r mod 64].
Proof.
  intros. unfold EncodeRune. unfold_consts. case_ifs.
  to_arith. rewrite lor_t2, lor_tx by zlia.
  f_equal; [|f_equal]; zlia.
Qed.
Lemma EncodeRune_3 r : 0x800 <= r <= 0xFFFF -> ~ (0xD800 <= r <= 0xDFFF) ->
  EncodeRune r = [224 + r / 4096; 128 + (r / 64) mod 64; 128 + r mod 64].
Proof.
  intros. unfold EncodeRune, encode3. unfold_consts. case_ifs.
  to_arith. rewrite lor_t3, !lor_tx by zlia.
  f_equal; [|f_equal; [|f_equal]]; zlia.
Qed.
Lemma EncodeRune_4 r : 0x10000 <= r <= 0x10FFFF ->
  EncodeRune r = [240 + r / 262144; 128 + (r / 4096) mod 64; 128 + (r / 64) mod 64; 128 + r mod 64].
Proof.
  intros. unfold EncodeRune, encode3. unfold_consts. case_ifs.
  to_arith. rewrite lor_t4, !lor_tx by zlia.
  f_equal; [|f_equal; [|f_equal;[|f_equal]]]; zlia.
Qed.
Lemma EncodeRune_bad r : ~ scalar r -> EncodeRune r = [0xEF; 0xBF; 0xBD].
Proof.
  unfold scalar. intros. unfold EncodeRune, encode3. unfold_consts. case_ifs; reflexivity.
Qed.

(** What [DecodeRune] returns at a non-empty sequence of bytes, by the class
    of its first byte. *)
Ltac decode_head :=
  match goal with
  | |- context [as_ <=? ?x] =>
    let b := eval vm_compute in (as_ <=? x) in change (as_ <=? x) with b;
    let b := eval vm_compute in (Z.testbit x 0) in change (Z.testbit x 0) with b;
    let b := eval vm_compute in (Z.land x 7) in change (Z.land x 7) with b;
    let b := eval vm_compute in (acceptRanges (Z.shiftr x 4)) in
      change (acceptRanges (Z.shiftr x 4)) with b
  end;
  cbn [fst snd]; cbv iota.

Ltac assemble :=
  first [ rewrite assemble4 by zlia | rewrite assemble3 by zlia | rewrite assemble2 by zlia ].

Lemma DecodeRune_scalar s : Forall is_byte s -> scalar (fst (DecodeRune s)).
Proof.
  intros Hs. destruct Hs as [|s0 t H0 Ht].
  { change (DecodeRune []) with (RuneError, 0%nat). cbn. unfold scalar. unfold_consts. lia. }
  pose proof (nth_is_byte t 0 Ht) as B1.
  pose proof (nth_is_byte t 1 Ht) as B2.
  pose proof (nth_is_byte t 2 Ht) as B3.
  unfold DecodeRune. cbn [nth].
  set (b1 := nth 0 t 0) in *. set (b2 := nth 1 t 0) in *. set (b3 := nth 2 t 0) in *.
  set (n := Z.of_nat (length (s0 :: t))).
  assert (1 <= n) by (subst n; cbn [length]; lia).
  clearbody n b1 b2 b3.
  unfold is_byte, scalar in *.
  destruct (first_classify s0 H0); decode_head; unfold_consts;
    repeat case_if_ctx; cbn [fst]; try lia;
    to_arith; assemble; zlia.
Qed.

Lemma DecodeRune_EncodeRune r rest : scalar r ->
  DecodeRune (EncodeRune r ++ rest) = (r, length (EncodeRune r)).
Proof.
  unfold scalar. unfold_consts. intros [Hr Hs].
  assert (r <= 0x7F \/ 0x80 <= r <= 0x7FF \/ 0x800 <= r <= 0xFFFF \/ 0x10000 <= r) as Hcl by lia.
  destruct Hcl as [Hc|[Hc|[Hc|Hc]]].
  - rewrite EncodeRune_1 by lia. cbn [app length].
    unfold DecodeRune. cbn [nth length].
    destruct (first_classify r); unfold is_byte; try lia.
    decode_head. unfold_consts. repeat case_if_ctx. reflexivity.
  - rewrite EncodeRune_2 by lia. cbn [app length].
    unfold DecodeRune. cbn [nth length].
    destruct (first_classify (192 + r / 64)); unfold is_byte; try zlia;
    decode_head; unfold_consts; repeat case_if_ctx;
    to_arith; assemble; f_equal; zlia.
  - rewrite EncodeRune_3 by lia. cbn [app length].
    unfold DecodeRune. cbn [nth length].
    destruct (first_classify (224 + r / 4096)); unfold is_byte; try zlia;
    decode_head; unfold_consts; repeat case_if_ctx;
    to_arith; assemble; f_equal; zlia.
  - rewrite EncodeRune_4 by lia. cbn [app length].
    unfold DecodeRune. cbn [nth length].
    destruct (first_classify (240 + r / 262144)); unfold is_byte; try zlia;
    decode_head; unfold_consts; repeat case_if_ctx;
    to_arith; assemble; f_equal; zlia.
Qed.

Lemma EncodeRune_length r : (1 <= length (EncodeRune r) <= 4)%nat.
Proof.
  unfold EncodeRune, encode3.
  repeat match goal with |- context [if ?c then _ else _] => destruct c end; cbn; lia.
Qed.

Lemma countStep_DecodeRune s : s <> [] -> Forall is_byte s ->
  countStep s = snd (DecodeRune s).
Proof.
  intros Hne Hs. destruct Hs as [|s0 t H0 Ht]; [congruence|].
  unfold countStep, DecodeRune. cbn [nth].
  set (b1 := nth 0 t 0) in *. set (b2 := nth 1 t 0) in *. set (b3 := nth 2 t 0) in *.
  set (n := Z.of_nat (length (s0 :: t))).
  assert (1 <= n) by (subst n; cbn [length]; lia).
  clearbody n b1 b2 b3. unfold is_byte in *.
  destruct (first_classify s0 H0); decode_head;
    match goal with
    | |- context [?x =? xx] =>
      let b := eval vm_compute in (x =? xx) in change (x =? xx) with b
    | _ => idtac
    end; cbv iota;
    unfold_consts; repeat case_if_ctx; reflexivity.
Qed.

Lemma byte_of_ascii_byte a : is_byte (byte_of_ascii a).
Proof.
  unfold is_byte, byte_of_ascii.
  pose proof (N_ascii_bounded a). lia.
Qed.

Lemma bytes_is_byte s : Forall is_byte (bytes s).
Proof.
  unfold bytes. apply List.Forall_forall. intros x Hx.
  apply in_map_iff in Hx as [a [<- _]]. apply byte_of_ascii_byte.
Qed.

Lemma byte_of_ascii_of_byte b : is_byte b -> byte_of_ascii (ascii_of_byte b) = b.
Proof.
  unfold is_byte, byte_of_ascii, ascii_of_byte. intros.
  rewrite N_ascii_embedding by lia. lia.
Qed.

Lemma ascii_of_byte_of_ascii a : ascii_of_byte (byte_of_ascii a) = a.
Proof.
  unfold byte_of_ascii, ascii_of_byte. rewrite N2Z.id. apply ascii_N_embedding.
Qed.

Lemma bytes_string_of_bytes l : Forall is_byte l -> bytes (string_of_bytes l) = l.
Proof.
  unfold bytes, string_of_bytes. intros Hl.
  rewrite list_ascii_of_string_of_list_ascii.
  induction Hl as [|b l Hb Hl IH]; cbn; [reflexivity|].
  rewrite byte_of_ascii_of_byte by assumption. f_equal. exact IH.
Qed.

Lemma string_of_bytes_bytes s : string_of_bytes (bytes s) = s.
Proof.
  unfold bytes, string_of_bytes.
  rewrite List.map_map.
  rewrite (List.map_ext _ (fun a => a)) by apply ascii_of_byte_of_ascii.
  rewrite List.map_id. apply string_of_list_ascii_of_string.
Qed.

Lemma EncodeRune_is_byte r : Forall is_byte (EncodeRune r).
Proof.
  unfold is_byte.
  destruct (Z.le_gt_cases 0 r) as [H0|H0].
  2:{ rewrite EncodeRune_bad by (unfold scalar; lia). repeat constructor; lia. }
  destruct (Z.le_gt_cases r 0x7F). { rewrite EncodeRune_1 by lia. repeat constructor; lia. }
  destruct (Z.le_gt_cases r 0x7FF).
  { rewrite EncodeRune_2 by lia. repeat constructor; zlia. }
  destruct (Z.le_gt_cases r 0x10FFFF).
  2:{ rewrite EncodeRune_bad by (unfold scalar; unfold_consts; lia). repeat constructor; lia. }
  destruct (Z.le_gt_cases 0xD800 r) as [H3|H3]; [destruct (Z.le_gt_cases r 0xDFFF) as [H4|H4]|].
  - rewrite EncodeRune_bad by (unfold scalar; unfold_consts; lia). repeat constructor; lia.
  - destruct (Z.le_gt_cases r 0xFFFF).
    + rewrite EncodeRune_3 by lia. repeat constructor; zlia.
    + rewrite EncodeRune_4 by lia. repeat constructor; zlia.
  - rewrite EncodeRune_3 by lia. repeat constructor; zlia.
Qed.

Lemma concat_EncodeRune_is_byte rs : Forall is_byte (concat (List.map EncodeRune rs)).
Proof.
  induction rs as [|r rs IH]; cbn; [constructor|].
  apply Forall_app. split; [apply EncodeRune_is_byte|exact IH].
Qed.

(** Skipping: after [length l] bytes to skip, the loop resumes at [rest]. *)
Lemma runesLoop_skip l rest : runesLoop (length l) (l ++ rest) = runesLoop 0 rest.
Proof. induction l as [|b l IH]; cbn [length app runesLoop]; [reflexivity|exact IH]. Qed.

Lemma runesLoop_step b t :
  runesLoop 0 (b :: t) =
  fst (DecodeRune (b :: t)) :: runesLoop (snd (DecodeRune (b :: t)) - 1) t.
Proof. cbn [runesLoop]. destruct (DecodeRune (b :: t)); reflexivity. Qed.

Lemma runesLoop_EncodeRune r rest : scalar r ->
  runesLoop 0 (EncodeRune r ++ rest) = r :: runesLoop 0 rest.
Proof.
  intros Hr. pose proof (DecodeRune_EncodeRune r rest Hr) as Hd.
  pose proof (EncodeRune_length r) as Hl.
  destruct (EncodeRune r) as [|b l] eqn:E; [cbn in Hl; lia|].
  cbn [app] in *. rewrite runesLoop_step, Hd. cbn [fst snd length].
  replace (S (length l) - 1)%nat with (length l) by lia.
  rewrite runesLoop_skip. reflexivity.
Qed.

Lemma runes_string_of_runes rs : Forall scalar rs -> runes (string_of_runes rs) = rs.
Proof.
  intros Hrs. unfold runes, string_of_runes.
  rewrite bytes_string_of_bytes by apply concat_EncodeRune_is_byte.
  induction Hrs as [|r rs Hr Hrs IH]; cbn [List.map concat]; [reflexivity|].
  rewrite runesLoop_EncodeRune by assumption. f_equal. exact IH.
Qed.

Lemma runesLoop_scalar s : Forall is_byte s -> forall k, Forall scalar (runesLoop k s).
Proof.
  induction 1 as [|b t Hb Ht IH]; intros k; [constructor|].
  destruct k as [|k]; [|cbn [runesLoop]; apply IH].
  rewrite runesLoop_step. constructor; [|apply IH].
  apply DecodeRune_scalar. constructor; assumption.
Qed.

Lemma runes_scalar s : Forall scalar (runes s).
Proof. apply runesLoop_scalar, bytes_is_byte. Qed.

Lemma countLoop_runesLoop s : Forall is_byte s -> forall k n,
  countLoop k s n = n + Z.of_nat (length (runesLoop k s)).
Proof.
  induction 1 as [|b t Hb Ht IH]; intros k n; [cbn; lia|].
  destruct k as [|k]; [|cbn [countLoop runesLoop]; apply IH].
  rewrite runesLoop_step. cbn [countLoop length].
  rewrite countStep_DecodeRune by (try discriminate; constructor; assumption).
  rewrite IH. lia.
Qed.

Lemma RuneCountInString_runes s : RuneCountInString s = Z.of_nat (length (runes s)).
Proof.
  unfold RuneCountInString, runes. rewrite countLoop_runesLoop by apply bytes_is_byte. lia.
Qed.

Lemma validLoop_skip l rest : validLoop (length l) (l ++ rest) = validLoop 0 rest.
Proof. induction l as [|b l IH]; cbn [length app validLoop]; [reflexivity|exact IH]. Qed.

Lemma validLoop_encoded rs : validLoop 0 (concat (List.map EncodeRune rs)) = true.
Proof.
  induction rs as [|r rs IH]; cbn [List.map concat]; [reflexivity|].
  assert (exists r', scalar r' /\ EncodeRune r = EncodeRune r') as (r' & Hr' & ->).
  { destruct (Z.le_gt_cases 0 r); [destruct (Z.le_gt_cases r 0x10FFFF);
      [destruct (Z.le_gt_cases 0xD800 r); [destruct (Z.le_gt_cases r 0xDFFF)|]|]|].
    2,3: (exists r; split; [unfold scalar; unfold_consts; lia|reflexivity]).
    all: exists RuneError; split; [unfold scalar; unfold_consts; lia|];
      rewrite EncodeRune_bad by (unfold scalar; unfold_consts; lia); reflexivity. }
  pose proof (DecodeRune_EncodeRune r' (concat (List.map EncodeRune rs)) Hr') as Hd.
  pose proof (EncodeRune_length r') as Hl.
  destruct (EncodeRune r') as [|b l] eqn:E; [cbn in Hl; lia|].
  cbn [app validLoop] in *. rewrite Hd.
  cbn [length].
  destruct l as [|b' l].
  - (* one byte: an ASCII rune, never RuneError *)
    assert (r' <> RuneError).
    { intros ->. vm_compute in E. discriminate. }
    destruct (Z.eqb_spec r' RuneError); [contradiction|]. cbn [andb]. exact IH.
  - cbn [length Nat.eqb]. rewrite andb_false_r.
    replace (S (S (length l)) - 1)%nat with (length (b' :: l)) by (cbn; lia).
    rewrite validLoop_skip. exact IH.
Qed.

Lemma ValidString_string_of_runes rs : ValidString (string_of_runes rs) = true.
Proof.
  unfold ValidString, string_of_runes.
  rewrite bytes_string_of_bytes by apply concat_EncodeRune_is_byte.
  apply validLoop_encoded.
Qed.

(** A decoding step that is not an encoding error read exactly the bytes
    that encode its rune. *)
Lemma DecodeRune_encodes s r n :
  Forall is_byte s -> s <> [] -> DecodeRune s = (r, n) ->
  (r = RuneError /\ n = 1%nat)
  \/ (EncodeRune r = take n s /\ (1 <= n <= length s)%nat).
Proof.
  intros Hs Hne. destruct Hs as [|s0 t H0 Ht]; [congruence|]. clear Hne.
  unfold DecodeRune. 
  assert (Hb : forall i, is_byte (nth i t 0)) by (intros i; apply nth_is_byte; assumption).
  pose proof (Hb 0%nat) as B1. pose proof (Hb 1%nat) as B2. pose proof (Hb 2%nat) as B3.
  clear Hb Ht.
  destruct t as [|b1 [|b2 [|b3 t]]]; cbn [nth length] in *; unfold is_byte in *;
    destruct (first_classify s0 H0); decode_head; unfold_consts;
    repeat case_if_ctx; intros [= <- <-];
    try (left; split; reflexivity); right;
    (split; [|cbn [length]; lia]); to_arith; try assemble.
  all: try (rewrite EncodeRune_1 by zlia; reflexivity).
  all: try (rewrite EncodeRune_2 by zlia; cbn [take]; repeat f_equal; zlia).
  all: try (rewrite EncodeRune_3 by zlia; cbn [take]; repeat f_equal; zlia).
  all: try (rewrite EncodeRune_4 by zlia; cbn [take]; repeat f_equal; zlia).
Qed.

Lemma runesLoop_skip_n n s : (n <= length s)%nat ->
  runesLoop n s = runesLoop 0 (drop n s).
Proof.
  intros H. rewrite <- (take_drop n s) at 1.
  rewrite <- (length_take_le s n H) at 1. apply runesLoop_skip.
Qed.

Lemma validLoop_skip_n n s : (n <= length s)%nat ->
  validLoop n s = validLoop 0 (drop n s).
Proof.
  intros H. rewrite <- (take_drop n s) at 1.
  rewrite <- (length_take_le s n H) at 1. apply validLoop_skip.
Qed.

(** Decoding and encoding again gives back a valid sequence of bytes. *)
Lemma valid_bytes_reencode s :
  Forall is_byte s -> validLoop 0 s = true ->
  concat (List.map EncodeRune (runesLoop 0 s)) = s.
Proof.
  remember (length s) as len eqn:Hlen. revert s Hlen.
  induction len as [len IH] using lt_wf_ind. intros s Hlen Hs Hv.
  destruct s as [|b t]; [reflexivity|].
  destruct (DecodeRune (b :: t)) as [r n] eqn:Hd.
  rewrite runesLoop_step, Hd. cbn [fst snd].
  cbn [validLoop] in Hv. rewrite Hd in Hv.
  destruct (DecodeRune_encodes (b :: t) r n Hs ltac:(discriminate) Hd) as [[-> ->]|[Henc Hn]].
  { rewrite Z.eqb_refl in Hv. discriminate. }
  destruct ((r =? RuneError) && Nat.eqb n 1); [discriminate|].
  cbn [length] in Hn.
  rewrite runesLoop_skip_n by lia. rewrite validLoop_skip_n in Hv by lia.
  assert (Hdrop : drop (n - 1) t = drop n (b :: t)).
  { destruct n as [|n]; [lia|]. cbn. f_equal. lia. }
  rewrite Hdrop in *.
  cbn [List.map concat]. rewrite Henc.
  rewrite (IH (length (drop n (b :: t)))); [apply take_drop| |reflexivity| |exact Hv].
  - rewrite length_drop. subst len. cbn [length]. lia.
  - apply Forall_drop. exact Hs.
Qed.

(** The valid strings are those the coercion leaves as they are. *)
Lemma ValidString_ToValid s : ValidString s = true <-> ToValid s = s.
Proof.
  split.
  - intros Hv. unfold ToValid, string_of_runes, runes.
    rewrite valid_bytes_reencode; [apply string_of_bytes_bytes|apply bytes_is_byte|exact Hv].
  - intros <-. apply ValidString_string_of_runes.
Qed.

(** The bytes of a string of runes: the encodings side by side, from one
    to four bytes for each rune. *)
Lemma length_string_of_bytes l : String.length (string_of_bytes l) = length l.
Proof.
  unfold string_of_bytes. induction l as [|b l IH]; cbn; [reflexivity|]. rewrite IH. reflexivity.
Qed.

Lemma string_of_bytes_app l1 l2 :
  string_of_bytes (l1 ++ l2) = string_of_bytes l1 ++ string_of_bytes l2.
Proof.
  unfold string_of_bytes. induction l1 as [|b l1 IH]; [reflexivity|].
  cbn [app List.map string_of_list_ascii]. rewrite IH. reflexivity.
Qed.

Lemma string_of_runes_app rs1 rs2 :
  string_of_runes (rs1 ++ rs2) = string_of_runes rs1 ++ string_of_runes rs2.
Proof.
  unfold string_of_runes. rewrite List.map_app, concat_app. apply string_of_bytes_app.
Qed.

Lemma length_string_of_runes rs :
  (length rs <= String.length (string_of_runes rs) <= 4 * length rs)%nat.
Proof.
  unfold string_of_runes. rewrite length_string_of_bytes.
  induction rs as [|r rs IH]; cbn [List.map concat length]; [lia|].
  rewrite length_app. pose proof (EncodeRune_length r). lia.
Qed.

End utf8_facts.

(** ** yoocommon: the description of an item is cut to 128 code points *)

Module Item_facts.
Import utf8 utf8_facts yoocommon.

Section Item.

Variable AmountStruct : Type.
Variable Amount_Marshal : AmountStruct -> result json.value.

Abbreviation Item := (Item AmountStruct).
Abbreviation MarshalJSON := (MarshalJSON AmountStruct Amount_Marshal).
Abbreviation Marshal_Alias := (Marshal_Alias AmountStruct Amount_Marshal).
Abbreviation amount_encodes := (amount_encodes AmountStruct Amount_Marshal).

Lemma ToValid_string_of_runes rs :
  Forall scalar rs -> ToValid (string_of_runes rs) = string_of_runes rs.
Proof. intros H. unfold ToValid. rewrite runes_string_of_runes by assumption. reflexivity. Qed.

Lemma ToValid_valid s : ValidString (ToValid s) = true.
Proof. apply ValidString_string_of_runes. Qed.

Lemma runes_ToValid s : runes (ToValid s) = runes s.
Proof. unfold ToValid. apply runes_string_of_runes, runes_scalar. Qed.

(** The encoding of the struct puts the description first, coerced to valid
    UTF-8. *)
Lemma Marshal_Alias_description (u : Item) :
  amount_encodes u ->
  exists j, Marshal_Alias u = Ok j /\
            member "description" j = Some (json.String (ToValid (Description _ u))).
Proof.
  intros Ha. unfold yoocommon.Marshal_Alias.
  destruct (Amount _ u) as [a|] eqn:E.
  - destruct (Ha a E) as [ja ->]. cbn. eexists. split; reflexivity.
  - cbn. eexists. split; reflexivity.
Qed.

(** At most 128 code points: the item is encoded as it is. *)
Lemma MarshalJSON_short (u : Item) :
  RuneCountInString (Description _ u) <= 128 ->
  MarshalJSON u = Returns (Marshal_Alias u).
Proof.
  intros H. unfold yoocommon.MarshalJSON, MAX_DESCRIPTION_LENGTH.
  destruct (Z.ltb_spec 128 (RuneCountInString (Description _ u))); [lia|reflexivity].
Qed.

(** X1.  [MarshalJSON] never panics: the guard on the number of runes keeps the
    slice expression within the bounds of the rune slice. *)
Lemma MarshalJSON_never_panics (u : Item) : exists r, MarshalJSON u = Returns r.
Proof.
  unfold yoocommon.MarshalJSON, MAX_DESCRIPTION_LENGTH.
  destruct (Z.ltb_spec 128 (RuneCountInString (Description _ u))) as [Hlt|Hle]; [|eauto].
  rewrite RuneCountInString_runes in Hlt. unfold slice_to.
  destruct (Z.leb_spec 0 128); [|lia].
  destruct (Z.leb_spec 128 (Z.of_nat (length (runes (Description _ u))))); [|lia].
  cbn [andb]. eauto.
Qed.

(** C6.  Serialising an item whose description has more than 128 code points
    returns an encoding whose [description] has exactly 128 code points: the
    first 128 runes of the original, counted as decoded characters and not
    as bytes, in a valid UTF-8 string (no sequence is cut in the middle).
    The slice expression never panics, and the item itself is not changed:
    the result is the encoding of a copy. *)
Theorem MarshalJSON_truncates_description (u : Item) :
  amount_encodes u ->
  128 < RuneCountInString (Description _ u) ->
  exists j d,
    MarshalJSON u = Returns (Marshal_Alias (with_Description _ u d)) /\
    Marshal_Alias (with_Description _ u d) = Ok j /\
    member "description" j = Some (json.String d) /\
    RuneCountInString d = 128 /\
    runes d = take 128 (runes (Description _ u)) /\
    ValidString d = true.
Proof.
  intros Ha Hlen.
  set (rs := runes (Description _ u)).
  assert (Hcount : (128 < length rs)%nat).
  { rewrite RuneCountInString_runes in Hlen. fold rs in Hlen. lia. }
  set (d := string_of_runes (take 128 rs)).
  assert (Hsc : Forall scalar (take 128 rs)) by (apply Forall_take, runes_scalar).
  assert (Hd : amount_encodes (with_Description _ u d)) by exact Ha.
  destruct (Marshal_Alias_description _ Hd) as (j & Hj & Hm).
  exists j, d. cbn [Description with_Description] in Hm.
  change (ToValid d) with (ToValid (string_of_runes (take 128 rs))) in Hm.
  rewrite ToValid_string_of_runes in Hm by assumption. fold d in Hm.
  repeat split.
  - unfold yoocommon.MarshalJSON, MAX_DESCRIPTION_LENGTH.
    destruct (Z.ltb_spec 128 (RuneCountInString (Description _ u))); [|lia].
    unfold slice_to. fold rs.
    destruct (Z.leb_spec 0 128); [|lia].
    destruct (Z.leb_spec 128 (Z.of_nat (length rs))); [|lia].
    cbn [andb]. change (Z.to_nat 128) with 128%nat. fold d. reflexivity.
  - exact Hj.
  - exact Hm.
  - rewrite RuneCountInString_runes. unfold d.
    rewrite runes_string_of_runes by assumption. rewrite length_take. lia.
  - unfold d. apply runes_string_of_runes. assumption.
  - apply ValidString_string_of_runes.
Qed.

(** The description [MarshalJSON] hands to the encoder: that of the item
    when it has at most 128 code points, else its first 128 runes. *)
Lemma MarshalJSON_description (u : Item) :
  exists d,
    MarshalJSON u = Returns (Marshal_Alias (with_Description _ u d))
    /\ (RuneCountInString (Description _ u) <= 128 -> d = Description _ u)
    /\ (128 < RuneCountInString (Description _ u) ->
        d = string_of_runes (take 128 (runes (Description _ u)))).
Proof.
  unfold yoocommon.MarshalJSON, MAX_DESCRIPTION_LENGTH.
  destruct (Z.ltb_spec 128 (RuneCountInString (Description _ u))) as [Hlt|Hle].
  - exists (string_of_runes (take 128 (runes (Description _ u)))).
    pose proof Hlt as Hlt'. rewrite RuneCountInString_runes in Hlt'. unfold slice_to.
    destruct (Z.leb_spec 0 128); [|lia].
    destruct (Z.leb_spec 128 (Z.of_nat (length (runes (Description _ u))))); [|lia].
    cbn [andb]. change (Z.to_nat 128) with 128%nat.
    split; [reflexivity|]. split; [lia|reflexivity].
  - exists (Description _ u). split; [destruct u; reflexivity|]. split; [reflexivity|lia].
Qed.

Lemma MarshalJSON_description_runes (u : Item) d :
  (RuneCountInString (Description _ u) <= 128 -> d = Description _ u) ->
  (128 < RuneCountInString (Description _ u) ->
   d = string_of_runes (take 128 (runes (Description _ u)))) ->
  (length (runes d) <= 128)%nat.
Proof.
  intros Hshort Hlong.
  destruct (Z.ltb_spec 128 (RuneCountInString (Description _ u))) as [Hlt|Hle].
  - rewrite (Hlong Hlt). rewrite runes_string_of_runes by (apply Forall_take, runes_scalar).
    rewrite length_take. lia.
  - rewrite (Hshort Hle). rewrite RuneCountInString_runes in Hle. lia.
Qed.

Lemma member_tail key k0 (x y : json.value) rest :
  key <> k0 ->
  member key (json.Object ((k0, x) :: rest)) = member key (json.Object ((k0, y) :: rest)).
Proof.
  intros Hne. unfold member. cbn [list_find fst].
  destruct (decide (k0 = key)) as [->|_]; [contradiction|]. reflexivity.
Qed.

(** X2.  A description that is valid UTF-8 and has at most 128 code points
    is encoded as it is, byte for byte, however many bytes it has. *)
Lemma MarshalJSON_keeps_short_description (u : Item) :
  amount_encodes u ->
  ValidString (Description _ u) = true ->
  RuneCountInString (Description _ u) <= 128 ->
  exists j,
    MarshalJSON u = Returns (Ok j)
    /\ member "description" j = Some (json.String (Description _ u)).
Proof.
  intros Ha Hv Hle.
  destruct (Marshal_Alias_description u Ha) as (j & Hj & Hm).
  exists j. rewrite (MarshalJSON_short u Hle), Hj. split; [reflexivity|].
  rewrite Hm. apply ValidString_ToValid in Hv. rewrite Hv. reflexivity.
Qed.

(** X3.  A description that is valid UTF-8 and has more than 128 code points
    is cut, not rewritten: the description encoded is a proper prefix of the
    original, byte for byte. *)
Lemma MarshalJSON_description_is_prefix (u : Item) :
  amount_encodes u ->
  ValidString (Description _ u) = true ->
  128 < RuneCountInString (Description _ u) ->
  exists j d rest,
    MarshalJSON u = Returns (Ok j)
    /\ member "description" j = Some (json.String d)
    /\ Description _ u = d ++ rest
    /\ (0 < String.length rest)%nat.
Proof.
  intros Ha Hv Hlt.
  destruct (MarshalJSON_description u) as (d & Hm & _ & Hd). specialize (Hd Hlt).
  assert (Hd' : amount_encodes (with_Description _ u d)) by exact Ha.
  destruct (Marshal_Alias_description _ Hd') as (j & Hj & Hmem).
  cbn [Description with_Description] in Hmem.
  set (rs := runes (Description _ u)) in *.
  assert (Hsc : Forall scalar (take 128 rs)) by (apply Forall_take, runes_scalar).
  rewrite Hd in Hmem. rewrite ToValid_string_of_runes in Hmem by assumption.
  rewrite <- Hd in Hmem.
  exists j, d, (string_of_runes (drop 128 rs)).
  split; [rewrite Hm, Hj; reflexivity|]. split; [exact Hmem|]. split.
  - rewrite Hd, <- string_of_runes_app, take_drop. symmetry.
    apply ValidString_ToValid in Hv. exact Hv.
  - pose proof (length_string_of_runes (drop 128 rs)) as Hl. rewrite length_drop in Hl.
    rewrite RuneCountInString_runes in Hlt. fold rs in Hlt. lia.
Qed.

(** X4.  Whatever the description of the item, valid UTF-8 or not, the
    description encoded is valid UTF-8, has at most 128 code points and takes
    at most 512 bytes. *)
Lemma MarshalJSON_description_bounds (u : Item) :
  amount_encodes u ->
  exists j d,
    MarshalJSON u = Returns (Ok j)
    /\ member "description" j = Some (json.String d)
    /\ RuneCountInString d <= 128
    /\ (String.length d <= 512)%nat
    /\ ValidString d = true.
Proof.
  intros Ha.
  destruct (MarshalJSON_description u) as (d & Hm & Hshort & Hlong).
  assert (Hd' : amount_encodes (with_Description _ u d)) by exact Ha.
  destruct (Marshal_Alias_description _ Hd') as (j & Hj & Hmem).
  cbn [Description with_Description] in Hmem.
  exists j, (ToValid d). split; [rewrite Hm, Hj; reflexivity|]. split; [exact Hmem|].
  pose proof (MarshalJSON_description_runes u d Hshort Hlong) as Hrunes.
  split; [|split].
  - rewrite RuneCountInString_runes, runes_ToValid. lia.
  - unfold ToValid. pose proof (length_string_of_runes (runes d)). lia.
  - apply ToValid_valid.
Qed.

(** X5.  Encoding is idempotent on the description: an item that holds the
    description of the encoding is encoded to the same JSON value, so an
    item that is decoded and encoded again is not cut a second time. *)
Lemma MarshalJSON_idempotent (u : Item) :
  amount_encodes u ->
  exists j d,
    MarshalJSON u = Returns (Ok j)
    /\ member "description" j = Some (json.String d)
    /\ MarshalJSON (with_Description _ u d) = Returns (Ok j).
Proof.
  intros Ha.
  destruct (MarshalJSON_description u) as (d & Hm & Hshort & Hlong).
  assert (Hd' : amount_encodes (with_Description _ u d)) by exact Ha.
  destruct (Marshal_Alias_description _ Hd') as (j & Hj & Hmem).
  cbn [Description with_Description] in Hmem.
  exists j, (ToValid d). split; [rewrite Hm, Hj; reflexivity|]. split; [exact Hmem|].
  pose proof (MarshalJSON_description_runes u d Hshort Hlong) as Hrunes.
  assert (Hcount : RuneCountInString (Description _ (with_Description _ u (ToValid d))) <= 128).
  { cbn [Description with_Description]. rewrite RuneCountInString_runes, runes_ToValid. lia. }
  rewrite (MarshalJSON_short _ Hcount).
  rewrite <- Hj. f_equal.
  unfold yoocommon.Marshal_Alias.
  cbn [Amount Description Quantity VatCode Measure PaymentSubject PaymentMode with_Description].
  assert (ToValid (ToValid d) = ToValid d) as ->; [|reflexivity].
  apply ValidString_ToValid, ToValid_valid.
Qed.

(** X6.  [MarshalJSON] differs from the encoding of the plain struct in the
    description only: every other member (quantity, amount, vat_code and
    the optional ones) is the one [json.Marshal] writes for the item as it
    is. *)
Lemma MarshalJSON_changes_description_only (u : Item) :
  amount_encodes u ->
  exists j j0,
    MarshalJSON u = Returns (Ok j)
    /\ Marshal_Alias u = Ok j0
    /\ forall key, key <> "description" -> member key j = member key j0.
Proof.
  intros Ha.
  destruct (MarshalJSON_description u) as (d & -> & _).
  unfold yoocommon.Marshal_Alias.
  cbn [Amount Description Quantity VatCode Measure PaymentSubject PaymentMode with_Description].
  assert (exists ja, match Amount _ u with None => Ok json.Null | Some a => Amount_Marshal a end
                     = Ok ja) as [ja ->].
  { destruct (Amount _ u) as [a|] eqn:E; [apply (Ha a E)|eauto]. }
  cbn [bind]. eexists _, _. split; [reflexivity|]. split; [reflexivity|].
  intros key Hne. apply member_tail. exact Hne.
Qed.

(** X7.  When the amount of the item cannot be encoded, [MarshalJSON]
    returns the error of the encoder as it is, whatever the description: it
    does not panic and returns no partial encoding. *)
Lemma MarshalJSON_amount_error (u : Item) a e :
  Amount _ u = Some a -> Amount_Marshal a = Err e -> MarshalJSON u = Returns (Err e).
Proof.
  intros Ha He. destruct (MarshalJSON_description u) as (d & -> & _).
  unfold yoocommon.Marshal_Alias. cbn [Amount with_Description]. rewrite Ha, He. reflexivity.
Qed.

End Item.

Lemma MarshalJSON_truncates_description_witness :
  128 < RuneCountInString (yoocommon.Description unit samples.item)
  /\ exists j d,
      yoocommon.MarshalJSON unit (fun _ => Ok json.Null) samples.item
      = Returns (yoocommon.Marshal_Alias unit (fun _ => Ok json.Null)
                   (with_Description unit samples.item d))
      /\ yoocommon.Marshal_Alias unit (fun _ => Ok json.Null)
           (with_Description unit samples.item d) = Ok j
      /\ member "description" j = Some (json.String d)
      /\ RuneCountInString d = 128
      /\ runes d = take 128 (runes (yoocommon.Description unit samples.item))
      /\ ValidString d = true.
Proof.
  split; [vm_compute; reflexivity|].
  apply (MarshalJSON_truncates_description unit (fun _ => Ok json.Null) samples.item).
  - intros a H. discriminate H.
  - vm_compute. reflexivity.
Defined.

Lemma MarshalJSON_keeps_short_description_witness :
  exists j,
    yoocommon.MarshalJSON unit (fun _ => Ok json.Null)
      (with_Description unit samples.item samples.full_description) = Returns (Ok j)
    /\ member "description" j = Some (json.String samples.full_description).
Proof.
  apply (MarshalJSON_keeps_short_description unit (fun _ => Ok json.Null)
           (with_Description unit samples.item samples.full_description)).
  - intros a H. discriminate H.
  - vm_compute. reflexivity.
  - vm_compute. discriminate.
Defined.

Lemma MarshalJSON_description_is_prefix_witness :
  exists j d rest,
    yoocommon.MarshalJSON unit (fun _ => Ok json.Null) samples.item = Returns (Ok j)
    /\ member "description" j = Some (json.String d)
    /\ samples.long_description = d ++ rest
    /\ (0 < String.length rest)%nat.
Proof.
  apply (MarshalJSON_description_is_prefix unit (fun _ => Ok json.Null) samples.item).
  - intros a H. discriminate H.
  - vm_compute. reflexivity.
  - vm_compute. reflexivity.
Defined.

Lemma MarshalJSON_description_bounds_witness :
  exists j d,
    yoocommon.MarshalJSON unit (fun _ => Ok json.Null) samples.item = Returns (Ok j)
    /\ member "description" j = Some (json.String d)
    /\ RuneCountInString d <= 128
    /\ (String.length d <= 512)%nat
    /\ ValidString d = true.
Proof.
  apply (MarshalJSON_description_bounds unit (fun _ => Ok json.Null) samples.item).
  intros a H. discriminate H.
Defined.

Lemma MarshalJSON_idempotent_witness :
  exists j d,
    yoocommon.MarshalJSON unit (fun _ => Ok json.Null) samples.item = Returns (Ok j)
    /\ member "description" j = Some (json.String d)
    /\ yoocommon.MarshalJSON unit (fun _ => Ok json.Null)
         (with_Description unit samples.item d) = Returns (Ok j).
Proof.
  apply (MarshalJSON_idempotent unit (fun _ => Ok json.Null) samples.item).
  intros a H. discriminate H.
Defined.

Lemma MarshalJSON_changes_description_only_witness :
  exists j j0,
    yoocommon.MarshalJSON unit (fun _ => Ok json.Null) samples.item = Returns (Ok j)
    /\ yoocommon.Marshal_Alias unit (fun _ => Ok json.Null) samples.item = Ok j0
    /\ forall key, key <> "description" -> member key j = member key j0.
Proof.
  apply (MarshalJSON_changes_description_only unit (fun _ => Ok json.Null) samples.item).
  intros a H. discriminate H.
Defined.

Lemma MarshalJSON_amount_error_witness :
  yoocommon.MarshalJSON unit (fun _ => Err (errorString "json: unsupported value: NaN"))
    {| yoocommon.Description := samples.long_description; yoocommon.Quantity := 1;
       yoocommon.Amount := Some tt; yoocommon.VatCode := 1; yoocommon.Measure := "";
       yoocommon.PaymentSubject := ""; yoocommon.PaymentMode := "" |}
  = Returns (Err (errorString "json: unsupported value: NaN")).
Proof.
  apply (MarshalJSON_amount_error unit (fun _ => Err (errorString "json: unsupported value: NaN"))
           {| yoocommon.Description := samples.long_description; yoocommon.Quantity := 1;
              yoocommon.Amount := Some tt; yoocommon.VatCode := 1; yoocommon.Measure := "";
              yoocommon.PaymentSubject := ""; yoocommon.PaymentMode := "" |}
           tt (errorString "json: unsupported value: NaN")).
  - reflexivity.
  - reflexivity.
Defined.

(** The sample: 130 code points in 325 bytes become 128 code points in 320
    bytes, the last one a whole three-byte sequence. *)
Lemma MarshalJSON_sample :
  RuneCountInString samples.long_description = 130
  /\ String.length samples.long_description = 325%nat
  /\ exists d rest,
      yoocommon.MarshalJSON unit (fun _ => Ok json.Null) samples.item
      = Returns (Ok (json.Object (("description", json.String d) :: rest)))
      /\ RuneCountInString d = 128
      /\ String.length d = 320%nat
      /\ drop 317 (bytes d) = [0xE2; 0x82; 0xAC].
Proof.
  split; [vm_compute; reflexivity|]. split; [vm_compute; reflexivity|].
  eexists. eexists. split; [vm_compute; reflexivity|].
  repeat split; vm_compute; reflexivity.
Qed.

End Item_facts.

(** ** encoding/json: what decoding a shaped mapping yields *)

Module decode_facts.
Import utf8 utf8_facts encoding.

Lemma sequence_map_Ok {A B} (g : A -> result B) (h : A -> B) (l : list A) :
  (forall x, x ∈ l -> g x = Ok (h x)) -> sequence (List.map g l) = Ok (List.map h l).
Proof.
  induction l as [|a l IH]; intros H; cbn; [reflexivity|].
  rewrite (H a) by left. cbn. rewrite IH; [reflexivity|].
  intros x Hx. apply H. right; exact Hx.
Qed.

Lemma sortedEntries_elem {A} (m : gmap string A) k (a : A) :
  (k, a) ∈ sortedEntries m <-> m !! k = Some a.
Proof.
  unfold sortedEntries. rewrite merge_sort_Permutation. apply elem_of_map_to_list.
Qed.

Lemma Marshal_AMap m :
  (forall k v, m !! k = Some v -> exists j, Marshal v = Ok j) ->
  Marshal (AMap m) =
  Ok (json.Object (List.map (fun kr : string * result json.value => (ToValid kr.1, from_result json.Null kr.2))
                            (sortedEntries (Marshal <$> m)))).
Proof.
  intros H. cbn [Marshal].
  rewrite (sequence_map_Ok _ (fun kr : string * result json.value => (ToValid kr.1, from_result json.Null kr.2))).
  - reflexivity.
  - intros [k r] Hx. apply sortedEntries_elem in Hx.
    apply lookup_fmap_Some in Hx as (v & <- & Hv).
    destruct (H k v Hv) as [j ->]. reflexivity.
Qed.

Lemma insert_lookup_const {A} (l : list A) (i0 i : nat) (x : A) :
  <[i0 := x]> l !! i = if Nat.eqb i0 i then (fun _ => x) <$> l !! i else l !! i.
Proof.
  destruct (Nat.eqb_spec i0 i) as [->|Hne].
  - destruct (l !! i) eqn:E.
    + cbn. apply list_lookup_insert_eq. eapply lookup_lt_Some; eauto.
    + cbn. apply lookup_ge_None. rewrite length_insert. apply lookup_ge_None; assumption.
  - apply list_lookup_insert_ne. assumption.
Qed.

Lemma fold_decode T (tgt : nat -> FieldValue) ms :
  (forall key j i f, (key, j) ∈ ms -> findField (Fields T) key = Some (i, f) ->
                     store (FKind f) j = Set_ (tgt i)) ->
  forall st, exists st',
    foldl (decodeMember T) (st, None) ms = (st', None) /\
    length st' = length st /\
    forall i, st' !! i = if existsb (fun kv : string * json.value => selects (Fields T) i kv.1) ms
                         then (fun _ => tgt i) <$> st !! i else st !! i.
Proof.
  induction ms as [|[key j] ms IH]; intros H st.
  - exists st. cbn. auto.
  - cbn [foldl]. unfold decodeMember at 2. cbn [fst snd].
    destruct (findField (Fields T) key) as [[i0 f]|] eqn:Ef.
    + rewrite (H key j i0 f) by (try left; assumption).
      destruct (IH (fun key j i f Hin => H key j i f (list_elem_of_further _ _ _ Hin)) (<[i0 := tgt i0]> st))
        as (st' & Hfold & Hlen & Hlook).
      exists st'. split; [exact Hfold|]. split; [rewrite Hlen; apply length_insert|].
      intros i. rewrite Hlook. cbn [existsb fst]. unfold selects at 2. rewrite Ef.
      rewrite insert_lookup_const.
      destruct (Nat.eqb_spec i0 i) as [->|Hne]; cbn [orb].
      * destruct (existsb _ ms); [|reflexivity].
        destruct (st !! i); reflexivity.
      * reflexivity.
    + destruct (IH (fun key j i f Hin => H key j i f (list_elem_of_further _ _ _ Hin)) st)
        as (st' & Hfold & Hlen & Hlook).
      exists st'. split; [exact Hfold|]. split; [exact Hlen|].
      intros i. rewrite Hlook. cbn [existsb fst]. unfold selects at 2. rewrite Ef. reflexivity.
Qed.

Lemma ascii_bytes_runes l :
  Forall (fun c => 0 <= c < 0x80) l ->
  runesLoop 0 l = l /\ concat (List.map EncodeRune l) = l.
Proof.
  induction 1 as [|c t Hc Ht [IH1 IH2]]; [split; reflexivity|].
  assert (Hsc : scalar c) by (unfold scalar, MaxRune, surrogateMin, surrogateMax; lia).
  pose proof (runesLoop_EncodeRune c t Hsc) as Hr.
  rewrite EncodeRune_1 in Hr by lia. cbn [app] in Hr.
  split.
  - rewrite Hr, IH1. reflexivity.
  - cbn [List.map concat]. rewrite EncodeRune_1 by lia. rewrite IH2. reflexivity.
Qed.

Lemma isASCII_ToValid s : isASCII s = true -> ToValid s = s.
Proof.
  unfold isASCII. intros H.
  assert (Hl : Forall (fun c => 0 <= c < 0x80) (bytes s)).
  { apply List.Forall_forall. intros c Hc.
    pose proof (proj1 (forallb_forall _ _) H c Hc) as Hlt. cbn in Hlt.
    pose proof (proj1 (List.Forall_forall _ _) (bytes_is_byte s) c Hc) as Hb.
    unfold is_byte in Hb. lia. }
  destruct (ascii_bytes_runes _ Hl) as [H1 H2].
  unfold ToValid, string_of_runes, runes. rewrite H1, H2. apply string_of_bytes_bytes.
Qed.

Lemma wfStruct_names T : wfStruct T = true ->
  Forall (fun f => ToValid (Name f) = Name f) (Fields T) /\
  NoDup (Name <$> Fields T).
Proof.
  unfold wfStruct. intros H. apply andb_true_iff in H as [Ha Hn].
  apply bool_decide_eq_true in Hn. split.
  - apply List.Forall_forall. intros f Hf. apply isASCII_ToValid.
    exact (proj1 (forallb_forall _ _) Ha f Hf).
  - apply (NoDup_fmap_1 foldName). rewrite <- list_fmap_compose. exact Hn.
Qed.

Lemma findField_lookup fields key i f :
  findField fields key = Some (i, f) -> fields !! i = Some f.
Proof.
  unfold findField. destruct (list_find _ fields) as [[i' f']|] eqn:E.
  - intros [= -> ->]. apply list_find_Some in E. tauto.
  - intros E'. apply list_find_Some in E'. tauto.
Qed.

Lemma findField_exact fields i f :
  NoDup (Name <$> fields) -> fields !! i = Some f ->
  findField fields (Name f) = Some (i, f).
Proof.
  intros Hnd Hi. unfold findField.
  assert (list_find (fun f0 => Name f0 = Name f) fields = Some (i, f)) as ->; [|reflexivity].
  apply list_find_Some. split; [exact Hi|]. split; [reflexivity|].
  intros j y Hj Hlt Heq.
  assert (j = i); [|lia].
  eapply (NoDup_lookup _ _ _ (Name f) Hnd); rewrite list_lookup_fmap.
  - rewrite Hj. cbn. f_equal. exact Heq.
  - rewrite Hi. reflexivity.
Qed.

Import yoopayment.

Lemma shapedAs_lookup T m k v :
  shapedAs T m = true -> m !! k = Some v -> shapedMember T k v = true.
Proof.
  unfold shapedAs. intros H Hk. apply bool_decide_eq_true in H.
  exact (H k v Hk).
Qed.

Lemma zero_lookup T i f : Fields T !! i = Some f -> zero T !! i = Some (zeroValue (FKind f)).
Proof.
  intros H. unfold zero.
  change (List.map (fun f0 => zeroValue (FKind f0)) (Fields T))
    with ((fun f0 => zeroValue (FKind f0)) <$> Fields T).
  rewrite list_lookup_fmap, H. reflexivity.
Qed.

Lemma convert_mapping T m :
  wfStruct T = true -> shapedAs T m = true ->
  exists r,
    convertPaymentMethod T (Dynamic (AMap m)) = Returns (r, None) /\
    length r = length (Fields T) /\
    forall i f, Fields T !! i = Some f -> r !! i = Some (expected m f).
Proof.
  intros Hwf Hsh.
  destruct (wfStruct_names T Hwf) as [Hvalid Hnd].
  assert (Henc : forall k v, m !! k = Some v -> exists j, Marshal v = Ok j).
  { intros k v Hk. pose proof (shapedAs_lookup T m k v Hsh Hk) as Hm.
    unfold shapedMember in Hm. apply andb_true_iff in Hm as [Hm _].
    destruct (Marshal v); [eauto|discriminate]. }
  unfold convertPaymentMethod. cbn [case_pointer case_value case_map].
  rewrite (Marshal_AMap m Henc).
  set (ms := List.map _ (sortedEntries (Marshal <$> m))).
  assert (Hms : forall key j, (key, j) ∈ ms ->
            exists k v, m !! k = Some v /\ key = ToValid k /\ Marshal v = Ok j).
  { intros key j Hin. unfold ms in Hin.
    apply list_elem_of_In, in_map_iff in Hin as ([k r] & Heq & Hin).
    apply list_elem_of_In, sortedEntries_elem, lookup_fmap_Some in Hin as (v & <- & Hv).
    cbn in Heq. injection Heq as <- <-.
    exists k, v. split; [exact Hv|]. split; [reflexivity|].
    destruct (Henc k v Hv) as [j' ->]. reflexivity. }
  set (tgt := fun i => match Fields T !! i with
                       | Some f => expected m f
                       | None => VBool false
                       end).
  destruct (fold_decode T tgt ms) with (st := zero T) as (r & Hfold & Hlen & Hlook).
  { intros key j i f Hin Hf.
    destruct (Hms key j Hin) as (k & v & Hk & -> & Hj).
    pose proof (shapedAs_lookup T m k v Hsh Hk) as Hm.
    unfold shapedMember in Hm. rewrite Hf in Hm.
    apply andb_true_iff in Hm as [_ Hm]. apply andb_true_iff in Hm as [Hname Hfit].
    apply bool_decide_eq_true in Hname. subst k.
    unfold tgt. rewrite (findField_lookup _ _ _ _ Hf). unfold expected. rewrite Hk.
    unfold fits in Hfit.
    destruct (FKind f), v; try discriminate; cbn [Marshal] in Hj; injection Hj as <-.
    - apply ValidString_ToValid in Hfit. rewrite Hfit. reflexivity.
    - reflexivity. }
  exists r. unfold Unmarshal. rewrite Hfold.
  split; [reflexivity|]. split.
  { rewrite Hlen. unfold zero. apply List.length_map. }
  intros i f Hi. rewrite Hlook. rewrite (zero_lookup T i f Hi).
  destruct (existsb _ ms) eqn:Eex.
  - cbn. unfold tgt. rewrite Hi. reflexivity.
  - f_equal. unfold expected.
    destruct (m !! Name f) as [v|] eqn:Ev; [exfalso|reflexivity].
    assert (existsb (fun kv : string * json.value => selects (Fields T) i kv.1) ms = true) as Hex;
      [|rewrite Hex in Eex; discriminate].
    destruct (Henc _ _ Ev) as [j Hj].
    apply existsb_exists. exists (Name f, j). split.
    + unfold ms. apply in_map_iff. exists (Name f, Marshal v). split.
      * cbn. rewrite Hj. cbn. f_equal.
        exact (proj1 (List.Forall_forall _ _) Hvalid f (proj1 (list_elem_of_In _ _) (list_elem_of_lookup_2 _ _ _ Hi))).
      * apply list_elem_of_In, sortedEntries_elem, lookup_fmap_Some. eauto.
    + cbn. unfold selects. rewrite (findField_exact _ i f Hnd Hi). apply Nat.eqb_refl.
Qed.

(** *** Encoding failures and decoding failures *)

Lemma sequence_Err {A} (l : list (result A)) e0 :
  Err e0 ∈ l -> exists e, sequence l = Err e /\ Err e ∈ l.
Proof.
  induction l as [|r l IH]; intros Hin; [inversion Hin|].
  destruct r as [a|e].
  - apply elem_of_cons in Hin as [Hin|Hin]; [discriminate|].
    destruct (IH Hin) as (e & He & Hel). exists e. cbn. rewrite He. split; [reflexivity|].
    right; exact Hel.
  - exists e. split; [reflexivity|left].
Qed.

Lemma sequence_Ok_elem {A} (l : list (result A)) xs x :
  sequence l = Ok xs -> Ok x ∈ l -> x ∈ xs.
Proof.
  revert xs. induction l as [|r l IH]; intros xs Hs Hin; [inversion Hin|].
  destruct r as [a|e]; [|discriminate]. cbn in Hs.
  destruct (sequence l) as [xs'|] eqn:E; [|discriminate]. cbn in Hs. injection Hs as <-.
  apply elem_of_cons in Hin as [Hin|Hin].
  - injection Hin as ->. left.
  - right. apply IH; [reflexivity|exact Hin].
Qed.

(** The member [json.Marshal] writes for an entry of a mapping. *)
Abbreviation memberOf := (fun kv : string * result json.value =>
                            bind kv.2 (fun j => Ok (ToValid kv.1, j))).

Lemma Marshal_AMap_unfold m :
  Marshal (AMap m) =
  bind (sequence (List.map memberOf (sortedEntries (Marshal <$> m))))
       (fun ms => Ok (json.Object ms)).
Proof. reflexivity. Qed.

(** One value the encoder rejects makes it reject the mapping, with the
    error of a value of the mapping. *)
Lemma Marshal_AMap_Err m k v e0 :
  m !! k = Some v -> Marshal v = Err e0 ->
  exists e, Marshal (AMap m) = Err e /\ exists k' v', m !! k' = Some v' /\ Marshal v' = Err e.
Proof.
  intros Hk Hv. rewrite Marshal_AMap_unfold.
  destruct (sequence_Err (List.map memberOf (sortedEntries (Marshal <$> m))) e0) as (e & He & Hin).
  { apply list_elem_of_In, in_map_iff. exists (k, Err e0). split; [reflexivity|].
    apply list_elem_of_In, sortedEntries_elem, lookup_fmap_Some. exists v. split; [exact Hv|exact Hk]. }
  exists e. rewrite He. split; [reflexivity|].
  apply list_elem_of_In, in_map_iff in Hin as ([k' r] & Heq & Hin).
  apply list_elem_of_In, sortedEntries_elem, lookup_fmap_Some in Hin as (v' & Hr & Hv').
  exists k', v'. split; [exact Hv'|]. cbn in Heq. rewrite Hr. destruct r; [discriminate|].
  cbn in Heq. congruence.
Qed.

Lemma Marshal_AMap_member m ms k v j :
  Marshal (AMap m) = Ok (json.Object ms) -> m !! k = Some v -> Marshal v = Ok j ->
  (ToValid k, j) ∈ ms.
Proof.
  rewrite Marshal_AMap_unfold. intros H Hk Hv.
  destruct (sequence _) as [ms'|] eqn:E; [|discriminate]. cbn in H. injection H as <-.
  apply (sequence_Ok_elem _ _ _ E).
  apply list_elem_of_In, in_map_iff. exists (k, Ok j). split; [reflexivity|].
  apply list_elem_of_In, sortedEntries_elem, lookup_fmap_Some. eauto.
Qed.

Lemma Marshal_AMap_Object m data : Marshal (AMap m) = Ok data -> exists ms, data = json.Object ms.
Proof.
  rewrite Marshal_AMap_unfold. destruct (sequence _); [|discriminate]. cbn. intros [= <-]. eauto.
Qed.

Lemma sortedEntries_singleton {A} k (a : A) :
  sortedEntries ({[k := a]} : gmap string A) = [(k, a)].
Proof. unfold sortedEntries. rewrite map_to_list_singleton. reflexivity. Qed.

(** The error the decoder saves is a type error of a field, and the first
    one saved is kept to the end. *)
Abbreviation typeError T o :=
  (exists what f, o = Some (UnmarshalTypeError what T f)).

Lemma decodeMember_saved T st kv :
  typeError T st.2 -> typeError T (decodeMember T st kv).2.
Proof.
  intros (what & f & H). unfold decodeMember.
  destruct (findField (Fields T) kv.1) as [[i0 f0]|]; [|exists what, f; exact H].
  destruct (store (FKind f0) kv.2); cbn [snd]; rewrite ?H; exists what, f; try exact H; reflexivity.
Qed.

Lemma fold_saved T ms st :
  typeError T st.2 -> typeError T (foldl (decodeMember T) st ms).2.
Proof.
  revert st. induction ms as [|kv ms IH]; intros st H; [exact H|].
  cbn [foldl]. apply IH, decodeMember_saved, H.
Qed.

Lemma decodeMember_mismatch T st key j i f what :
  findField (Fields T) key = Some (i, f) -> store (FKind f) j = Mismatch what ->
  st.2 = None \/ typeError T st.2 ->
  typeError T (decodeMember T st (key, j)).2.
Proof.
  intros Hf Hs H. unfold decodeMember. cbn [fst snd]. rewrite Hf, Hs. cbn [snd].
  destruct H as [->|(what' & f' & ->)]; [exists what, f|exists what', f']; reflexivity.
Qed.

Lemma decodeMember_inv T st kv :
  st.2 = None \/ typeError T st.2 ->
  (decodeMember T st kv).2 = None \/ typeError T (decodeMember T st kv).2.
Proof.
  intros [H|H]; [|right; apply decodeMember_saved, H].
  unfold decodeMember.
  destruct (findField (Fields T) kv.1) as [[i0 f0]|]; [|left; exact H].
  destruct (store (FKind f0) kv.2); cbn [snd]; [left; exact H|left; exact H|].
  rewrite H. right. eexists _, _. reflexivity.
Qed.

Lemma fold_mismatch T ms key j i f what :
  (key, j) ∈ ms -> findField (Fields T) key = Some (i, f) -> store (FKind f) j = Mismatch what ->
  forall st, st.2 = None \/ typeError T st.2 ->
             typeError T (foldl (decodeMember T) st ms).2.
Proof.
  intros Hin Hf Hs. induction ms as [|kv ms IH]; intros st Hst; [inversion Hin|].
  cbn [foldl]. apply elem_of_cons in Hin as [<-|Hin].
  - apply fold_saved. eapply decodeMember_mismatch; eauto.
  - apply IH; [exact Hin|]. apply decodeMember_inv, Hst.
Qed.

(** *** Mappings shaped as a struct, and the mapping of a struct *)

Import shapes.

Lemma shapedAs_insert T m k v :
  shapedAs T m = true -> shapedMember T k v = true -> shapedAs T (<[k := v]> m) = true.
Proof.
  unfold shapedAs. intros H Hkv. apply bool_decide_eq_true in H. apply bool_decide_eq_true.
  apply map_Forall_insert_2; assumption.
Qed.

(** The struct a shaped mapping is converted to is determined by its
    fields. *)
Lemma convert_mapping_eq T m r :
  wfStruct T = true -> shapedAs T m = true ->
  length r = length (Fields T) ->
  (forall i f, Fields T !! i = Some f -> r !! i = Some (expected m f)) ->
  convertPaymentMethod T (Dynamic (AMap m)) = Returns (r, None).
Proof.
  intros Hwf Hsh Hlen Hr.
  destruct (convert_mapping T m Hwf Hsh) as (r' & -> & Hlen' & Hr').
  do 2 f_equal. apply list_eq. intros i.
  destruct (Fields T !! i) as [f|] eqn:E.
  - rewrite (Hr i f E), (Hr' i f E). reflexivity.
  - apply lookup_ge_None in E. rewrite !(proj2 (lookup_ge_None _ _)); [reflexivity|lia|lia].
Qed.

Lemma wf_field_selects_itself T i f :
  wfStruct T = true -> Fields T !! i = Some f ->
  findField (Fields T) (ToValid (Name f)) = Some (i, f).
Proof.
  intros Hwf Hi. destruct (wfStruct_names T Hwf) as [Hvalid Hnd].
  rewrite (proj1 (List.Forall_forall _ _) Hvalid f
             (proj1 (list_elem_of_In _ _) (list_elem_of_lookup_2 _ _ _ Hi))).
  apply findField_exact; assumption.
Qed.

Lemma wellTyped_inv T v :
  wellTyped T v = true ->
  length v = length (Fields T)
  /\ forall i f x, Fields T !! i = Some f -> v !! i = Some x -> fits (FKind f) (toAny x) = true.
Proof.
  unfold wellTyped. intros H. apply andb_true_iff in H as [Hlen Hall].
  apply Nat.eqb_eq in Hlen. split; [exact Hlen|].
  intros i f x Hi Hv.
  apply (proj1 (forallb_forall _ _) Hall (f, x)).
  apply list_elem_of_In, list_elem_of_lookup. exists i.
  apply lookup_zip_with_Some. eauto.
Qed.

Lemma asMapping_lookup T v k a :
  NoDup (Name <$> Fields T) -> length v = length (Fields T) ->
  asMapping T v !! k = Some a <->
  exists i f x, Fields T !! i = Some f /\ v !! i = Some x /\ k = Name f /\ a = toAny x.
Proof.
  intros Hnd Hlen. unfold asMapping.
  rewrite <- elem_of_list_to_map by (rewrite fst_zip; [exact Hnd|rewrite !length_fmap; lia]).
  rewrite list_elem_of_lookup. split.
  - intros (i & Hi). apply lookup_zip_with_Some in Hi as (k' & a' & [= -> ->] & Hk & Ha).
    rewrite list_lookup_fmap in Hk. rewrite list_lookup_fmap in Ha.
    destruct (Fields T !! i) as [f|] eqn:Ef; [|discriminate].
    destruct (v !! i) as [x|] eqn:Ex; [|discriminate].
    cbn in Hk, Ha. injection Hk as <-. injection Ha as <-. eauto 10.
  - intros (i & f & x & Hi & Hv & -> & ->). exists i.
    apply lookup_zip_with_Some. exists (Name f), (toAny x).
    rewrite !list_lookup_fmap, Hi, Hv. auto.
Qed.

End decode_facts.

(** ** yoopayment: scalar extraction and variant resolution *)

Module payment_facts.
Import utf8 utf8_facts encoding decode_facts yoopayment.

(** C5.  [GetConfirmationToken] and [GetInvoiceIdFromMetadata] are the
    scalar extraction of the spec on the confirmation and on the metadata:
    a value that is not a generic mapping fails with the shape error, an
    absent key with the field-missing error, a value that is not a string
    with the type-mismatch error (naming its type), an empty string with the
    field-empty error, and any other string is returned as it is with no
    error.  The four error texts of each accessor are pairwise distinct,
    whatever the types named in them. *)
Theorem scalar_extraction (p : Payment) :
  GetConfirmationToken p =
    match extract "confirmation_token" (Confirmation p) with
    | NotAMapping _ => ("", Some (errorString "confirmation is not a map"))
    | FieldMissing =>
      ("", Some (errorString "confirmation_token not found in confirmation map"))
    | FieldTypeMismatch raw =>
      ("", Some (errorString ("confirmation_token is not a string, got " ++ typeName raw)))
    | FieldEmpty => ("", Some (errorString "confirmation_token is empty"))
    | Extracted s => (s, None)
    end
  /\ GetInvoiceIdFromMetadata p =
    match extract "invoice_id" (Metadata p) with
    | NotAMapping a =>
      ("", Some (errorString ("metadata is not a map[string]any, got " ++ typeName a)))
    | FieldMissing => ("", Some (errorString "invoice_id not found in metadata map"))
    | FieldTypeMismatch raw =>
      ("", Some (errorString ("invoice_id is not a string, got " ++ typeName raw)))
    | FieldEmpty => ("", Some (errorString "invoice_id is empty"))
    | Extracted s => (s, None)
    end
  /\ (forall T : string,
        NoDup ["confirmation is not a map";
               "confirmation_token not found in confirmation map";
               "confirmation_token is not a string, got " ++ T;
               "confirmation_token is empty"])
  /\ (forall T T' : string,
        NoDup ["metadata is not a map[string]any, got " ++ T;
               "invoice_id not found in metadata map";
               "invoice_id is not a string, got " ++ T';
               "invoice_id is empty"]).
Proof.
  split; [|split; [|split]].
  - unfold GetConfirmationToken, extract.
    destruct (Confirmation p) as [| | | | |m|]; try reflexivity.
    destruct (m !! "confirmation_token") as [raw|]; [|reflexivity].
    destruct raw; try reflexivity.
    destruct (decide (s = "")); reflexivity.
  - unfold GetInvoiceIdFromMetadata, extract.
    destruct (Metadata p) as [| | | | |m|]; try reflexivity.
    destruct (m !! "invoice_id") as [raw|]; [|reflexivity].
    destruct raw; try reflexivity.
    destruct (decide (s = "")); reflexivity.
  - intros T. repeat (apply NoDup_cons; split; [rewrite ?elem_of_cons, elem_of_nil; cbn; intuition discriminate|]).
    apply NoDup_nil_2.
  - intros T T'. repeat (apply NoDup_cons; split; [rewrite ?elem_of_cons, elem_of_nil; cbn; intuition discriminate|]).
    apply NoDup_nil_2.
Qed.

(** The four examples of the spec for the confirmation token. *)
Lemma scalar_extraction_examples :
  GetConfirmationToken
    (samples.payment (Dynamic ANil) (AMap (<["confirmation_token" := AString ""]> ∅)) ANil)
  = ("", Some (errorString "confirmation_token is empty"))
  /\ GetConfirmationToken (samples.payment (Dynamic ANil) (AMap ∅) ANil)
     = ("", Some (errorString "confirmation_token not found in confirmation map"))
  /\ GetConfirmationToken
       (samples.payment (Dynamic ANil)
          (AMap (<["confirmation_token" := AFloat64 (S754_finite false 21 1)]> ∅)) ANil)
     = ("", Some (errorString "confirmation_token is not a string, got float64"))
  /\ GetConfirmationToken
       (samples.payment (Dynamic ANil) (AMap (<["confirmation_token" := AString "tok_1"]> ∅)) ANil)
     = ("tok_1", None).
Proof. repeat split; vm_compute; reflexivity. Qed.

(** The source tries the pointer before the value; the two cases exclude
    each other, so the order cannot be observed. *)
Lemma cases_exclusive T pm :
  (is_Some (case_value T pm) -> case_pointer T pm = None /\ case_map pm = None)
  /\ (is_Some (case_pointer T pm) -> case_value T pm = None /\ case_map pm = None)
  /\ (is_Some (case_map pm) -> case_value T pm = None /\ case_pointer T pm = None).
Proof.
  destruct pm as [T' v|T' q|[]]; cbn;
    repeat match goal with |- context [decide ?P] => destruct (decide P) end;
    (split; [|split]); intros [x Hx]; try discriminate; split; reflexivity.
Qed.



(** C10.  A nil pointer of type [*T] is matched by the pointer case and
    dereferenced: [convertPaymentMethod] panics instead of returning an
    error, and so does every accessor built on it. *)
Theorem nil_pointer_panics (T : StructType) :
  convertPaymentMethod T (Pointer T None)
  = Panics "runtime error: invalid memory address or nil pointer dereference"
  /\ forall declared confirmation metadata,
      GetBasePaymentMethod declared
        {| PaymentMethod := Pointer (structType declared BasePaymentMethod) None;
           Confirmation := confirmation; Metadata := metadata |}
      = Panics "runtime error: invalid memory address or nil pointer dereference"
      /\ GetPaymentMethodWithCard declared
           {| PaymentMethod := Pointer (structType declared PaymentMethodWithCard) None;
              Confirmation := confirmation; Metadata := metadata |}
         = Panics "runtime error: invalid memory address or nil pointer dereference"
      /\ GetPaymentMethodSbp declared
           {| PaymentMethod := Pointer (structType declared SBP) None;
              Confirmation := confirmation; Metadata := metadata |}
         = (Panics "runtime error: invalid memory address or nil pointer dereference", []).
Proof.
  assert (H : forall T', convertPaymentMethod T' (Pointer T' None)
              = Panics "runtime error: invalid memory address or nil pointer dereference").
  { intros T'. unfold convertPaymentMethod. cbn [case_pointer].
    destruct (decide (T' = T')); [reflexivity|contradiction]. }
  split; [apply H|].
  intros declared confirmation metadata.
  unfold GetBasePaymentMethod, GetPaymentMethodWithCard, GetPaymentMethodSbp.
  cbn [PaymentMethod]. rewrite !H. repeat split.
Qed.

(** A member of the wrong JSON type for its field makes the decoding fail:
    the zero value is returned with the wrapped decoding error. *)
Lemma convertPaymentMethod_unmarshal_error_example :
  convertPaymentMethod (structType samples.fields SBP)
    (Dynamic (AMap (<["type" := AString "sbp"]> (<["saved" := AString "yes"]> ∅))))
  = Returns (zero (structType samples.fields SBP),
             Some (wrapError
                     ("failed to unmarshal to yoopayment.SBP: "
                      ++ "json: cannot unmarshal string into Go struct field SBP.saved of type bool")
                     (errorString
                        "json: cannot unmarshal string into Go struct field SBP.saved of type bool"))).
Proof. vm_compute. reflexivity. Qed.

(** A value that fits the kind of a field is the one the field then holds. *)
Lemma toAny_expected m f v :
  m !! Name f = Some v -> fits (FKind f) v = true -> toAny (expected m f) = v.
Proof.
  intros Hm Hfit. unfold expected. rewrite Hm.
  unfold fits in Hfit. destruct (FKind f), v; try discriminate; reflexivity.
Qed.

Lemma shaped_field_fits T m i f v :
  wfStruct T = true -> shapedAs T m = true ->
  Fields T !! i = Some f -> m !! Name f = Some v -> fits (FKind f) v = true.
Proof.
  intros Hwf Hsh Hi Hm.
  destruct (wfStruct_names T Hwf) as [Hvalid Hnd].
  pose proof (shapedAs_lookup T m _ v Hsh Hm) as Hs.
  unfold shapedMember in Hs.
  rewrite (proj1 (List.Forall_forall _ _) Hvalid f
             (proj1 (list_elem_of_In _ _) (list_elem_of_lookup_2 _ _ _ Hi))) in Hs.
  rewrite (findField_exact _ i f Hnd Hi) in Hs.
  apply andb_true_iff in Hs as [_ Hs]. apply andb_true_iff in Hs as [_ Hs]. exact Hs.
Qed.

(** C8.  For a generic mapping shaped as the base payment method,
    [GetBasePaymentMethod] succeeds with a nil error, and the re-encoding
    and decoding leave every field as the mapping has it: a field whose key
    is in the mapping holds the value of that member, a field whose key is
    absent holds its zero value. *)
Theorem base_mapping_round_trip (declared : Variant -> list Field)
    (p : Payment) (m : gmap string any) :
  wfStruct (structType declared BasePaymentMethod) = true ->
  PaymentMethod p = Dynamic (AMap m) ->
  shapedAs (structType declared BasePaymentMethod) m = true ->
  exists r,
    GetBasePaymentMethod declared p = Returns (r, None)
    /\ length r = length (Fields (structType declared BasePaymentMethod))
    /\ forall i f, Fields (structType declared BasePaymentMethod) !! i = Some f ->
         match m !! Name f with
         | Some v => toAny <$> r !! i = Some v
         | None => r !! i = Some (zeroValue (FKind f))
         end.
Proof.
  intros Hwf Hp Hsh.
  destruct (convert_mapping _ m Hwf Hsh) as (r & Hr & Hlen & Hfields).
  exists r. unfold GetBasePaymentMethod. rewrite Hp.
  split; [exact Hr|]. split; [exact Hlen|].
  intros i f Hi. rewrite (Hfields i f Hi).
  destruct (m !! Name f) as [v|] eqn:Hm.
  - cbn. f_equal. apply toAny_expected; [exact Hm|].
    eapply shaped_field_fits; eauto.
  - unfold expected. rewrite Hm. reflexivity.
Qed.

Lemma base_mapping_round_trip_witness :
  exists r,
    GetBasePaymentMethod samples.fields
      (samples.payment (Dynamic (AMap samples.bank_card)) ANil ANil) = Returns (r, None)
    /\ length r = length (Fields (structType samples.fields BasePaymentMethod))
    /\ forall i f, Fields (structType samples.fields BasePaymentMethod) !! i = Some f ->
         match samples.bank_card !! Name f with
         | Some v => toAny <$> r !! i = Some v
         | None => r !! i = Some (zeroValue (FKind f))
         end.
Proof.
  apply (base_mapping_round_trip samples.fields
           (samples.payment (Dynamic (AMap samples.bank_card)) ANil ANil) samples.bank_card).
  - vm_compute. reflexivity.
  - reflexivity.
  - vm_compute. reflexivity.
Defined.

(** The decoded sample, field by field. *)
Lemma base_mapping_example :
  GetBasePaymentMethod samples.fields
    (samples.payment (Dynamic (AMap samples.bank_card)) ANil ANil)
  = Returns ([VString "bank_card"; VString "pm-1"; VBool true; VString ""], None).
Proof. vm_compute. reflexivity. Qed.

(** What [GetPaymentMethodSbp] returns once the conversion has succeeded. *)
Lemma GetPaymentMethodSbp_converted declared p sbp :
  convertPaymentMethod (structType declared SBP) (PaymentMethod p) = Returns (sbp, None) ->
  (GetPaymentMethodSbp declared p).1 =
  if decide (Type_ sbp <> PaymentTypeSBP)
  then Returns (sbp, Some (errorString ("payment method is not SBP, got " ++ Type_ sbp)))
  else Returns (sbp, None).
Proof.
  intros H. unfold GetPaymentMethodSbp. rewrite H.
  destruct (decide (Type_ sbp <> PaymentTypeSBP)); reflexivity.
Qed.

(** C4.  A generic mapping shaped as the fast-payment-system variant whose
    [type] is [d], not [sbp], is refused by [GetPaymentMethodSbp] with the
    discriminator-mismatch error that reports [d]; more generally whatever
    resolves to a variant whose discriminator is not [sbp] is refused with
    the error reporting that discriminator; and a nil error is only ever
    returned with a variant whose discriminator is [sbp]. *)
Theorem sbp_discriminator_mismatch (declared : Variant -> list Field)
    (p : Payment) (m : gmap string any) (d : string) :
  wfStruct (structType declared SBP) = true ->
  PaymentMethod p = Dynamic (AMap m) ->
  shapedAs (structType declared SBP) m = true ->
  m !! "type" = Some (AString d) ->
  d <> PaymentTypeSBP ->
  (exists sbp,
      (GetPaymentMethodSbp declared p).1 =
      Returns (sbp, Some (errorString ("payment method is not SBP, got " ++ d)))
      /\ Type_ sbp = d)
  /\ (forall p' sbp',
        convertPaymentMethod (structType declared SBP) (PaymentMethod p') = Returns (sbp', None) ->
        Type_ sbp' <> PaymentTypeSBP ->
        (GetPaymentMethodSbp declared p').1 =
        Returns (sbp', Some (errorString ("payment method is not SBP, got " ++ Type_ sbp'))))
  /\ (forall p' sbp',
        (GetPaymentMethodSbp declared p').1 = Returns (sbp', None) ->
        Type_ sbp' = PaymentTypeSBP).
Proof.
  intros Hwf Hp Hsh Hm Hd.
  assert (Hgen : forall p' sbp',
        convertPaymentMethod (structType declared SBP) (PaymentMethod p') = Returns (sbp', None) ->
        Type_ sbp' <> PaymentTypeSBP ->
        (GetPaymentMethodSbp declared p').1 =
        Returns (sbp', Some (errorString ("payment method is not SBP, got " ++ Type_ sbp')))).
  { intros p' sbp' Hc Hne. rewrite (GetPaymentMethodSbp_converted _ _ _ Hc).
    destruct (decide (Type_ sbp' <> PaymentTypeSBP)); [reflexivity|contradiction]. }
  split; [|split; [exact Hgen|]].
  - destruct (convert_mapping _ m Hwf Hsh) as (sbp & Hr & Hlen & Hfields).
    assert (Ht : Type_ sbp = d).
    { unfold Type_. rewrite (Hfields 0%nat Type_field eq_refl).
      unfold expected. cbn [Name Type_field]. rewrite Hm. reflexivity. }
    exists sbp. split; [|exact Ht].
    rewrite <- Hp in Hr. rewrite (Hgen p sbp Hr) by (rewrite Ht; exact Hd).
    rewrite Ht. reflexivity.
  - intros p' sbp' H. unfold GetPaymentMethodSbp in H.
    destruct (convertPaymentMethod _ _) as [[v [e|]]|]; cbn in H; try discriminate.
    destruct (decide (Type_ v <> PaymentTypeSBP)) as [Hne|He]; cbn in H; [discriminate|].
    injection H as <-. destruct (decide (Type_ v = PaymentTypeSBP)); [assumption|contradiction].
Qed.

Lemma sbp_discriminator_mismatch_witness :
  exists sbp,
    (GetPaymentMethodSbp samples.fields
       (samples.payment (Dynamic (AMap samples.bank_card)) ANil ANil)).1 =
    Returns (sbp, Some (errorString ("payment method is not SBP, got " ++ "bank_card")))
    /\ Type_ sbp = "bank_card".
Proof.
  apply (sbp_discriminator_mismatch samples.fields
           (samples.payment (Dynamic (AMap samples.bank_card)) ANil ANil)
           samples.bank_card "bank_card").
  - vm_compute. reflexivity.
  - reflexivity.
  - vm_compute. reflexivity.
  - vm_compute. reflexivity.
  - discriminate.
Defined.

(** Every successful conversion is followed by a line on the standard
    output. *)
Lemma GetPaymentMethodSbp_prints declared p sbp :
  convertPaymentMethod (structType declared SBP) (PaymentMethod p) = Returns (sbp, None) ->
  (GetPaymentMethodSbp declared p).2 = [Println "ALE" (Type_ sbp)].
Proof.
  intros H. unfold GetPaymentMethodSbp. rewrite H.
  destruct (decide (Type_ sbp <> PaymentTypeSBP)); reflexivity.
Qed.

(** C9.  Resolving the mapping [{"type": "bank_card", ...}] as the
    fast-payment-system variant returns the mismatch error and also writes
    the line [ALE bank_card] to the standard output. *)
Theorem GetPaymentMethodSbp_writes_to_stdout :
  GetPaymentMethodSbp samples.fields
    (samples.payment (Dynamic (AMap samples.bank_card)) ANil ANil)
  = (Returns ([VString "bank_card"; VString "pm-1"; VBool true; VString ""],
              Some (errorString "payment method is not SBP, got bank_card")),
     ["ALE bank_card" ++ String "010" EmptyString]).
Proof. vm_compute. reflexivity. Qed.

(** ** yoopayment: further guarantees of the accessors *)

Import shapes.

(** X8.  The two scalar accessors return a nil error exactly when the value
    is a generic mapping whose key holds a string that is not empty, and
    that string is what they return; with an error they return the empty
    string.  So a nil error never comes with an empty token or id. *)
Lemma extraction_sound (p : Payment) :
  (forall token, GetConfirmationToken p = (token, None) <->
     token <> "" /\ exists m, Confirmation p = AMap m
                            /\ m !! "confirmation_token" = Some (AString token))
  /\ (forall id, GetInvoiceIdFromMetadata p = (id, None) <->
        id <> "" /\ exists m, Metadata p = AMap m /\ m !! "invoice_id" = Some (AString id))
  /\ (forall s e, GetConfirmationToken p = (s, Some e) \/ GetInvoiceIdFromMetadata p = (s, Some e) ->
        s = "").
Proof.
  split; [|split].
  - intros token. unfold GetConfirmationToken. split.
    + destruct (Confirmation p) as [| | | | |m|]; try discriminate.
      destruct (m !! "confirmation_token") as [raw|] eqn:E; [|discriminate].
      destruct raw; try discriminate.
      destruct (decide (s = "")); [discriminate|]. intros [= <-]. eauto.
    + intros (Hne & m & -> & ->). destruct (decide (token = "")); [contradiction|reflexivity].
  - intros id. unfold GetInvoiceIdFromMetadata. split.
    + destruct (Metadata p) as [| | | | |m|]; try discriminate.
      destruct (m !! "invoice_id") as [raw|] eqn:E; [|discriminate].
      destruct raw; try discriminate.
      destruct (decide (s = "")); [discriminate|]. intros [= <-]. eauto.
    + intros (Hne & m & -> & ->). destruct (decide (id = "")); [contradiction|reflexivity].
  - intros s e [H|H].
    + unfold GetConfirmationToken in H.
      destruct (Confirmation p) as [| | | | |m|]; try (injection H as <- _; reflexivity).
      destruct (m !! "confirmation_token") as [raw|]; [|injection H as <- _; reflexivity].
      destruct raw; try (injection H as <- _; reflexivity).
      destruct (decide (s0 = "")); [injection H as <- _; reflexivity|discriminate].
    + unfold GetInvoiceIdFromMetadata in H.
      destruct (Metadata p) as [| | | | |m|]; try (injection H as <- _; reflexivity).
      destruct (m !! "invoice_id") as [raw|]; [|injection H as <- _; reflexivity].
      destruct raw; try (injection H as <- _; reflexivity).
      destruct (decide (s0 = "")); [injection H as <- _; reflexivity|discriminate].
Qed.

(** X9.  Whenever [convertPaymentMethod] returns an error, the value that
    comes with it is the zero value of the requested type: no partly decoded
    struct is handed out. *)
Lemma convertPaymentMethod_error_zero (T : StructType) (pm : PaymentMethoder) v e :
  convertPaymentMethod T pm = Returns (v, Some e) -> v = zero T.
Proof.
  unfold convertPaymentMethod.
  destruct (case_pointer T pm) as [[x|]|]; [discriminate|discriminate|].
  destruct (case_value T pm); [discriminate|].
  destruct (case_map pm) as [m|].
  - destruct (Marshal (AMap m)) as [data|]; [|intros [= <- _]; reflexivity].
    destruct (Unmarshal T data (zero T)); [discriminate|intros [= <- _]; reflexivity].
  - intros [= <- _]; reflexivity.
Qed.

Lemma convertPaymentMethod_error_zero_witness :
  [VString ""; VString ""; VBool false; VString ""] = zero (structType samples.fields SBP).
Proof.
  apply (convertPaymentMethod_error_zero (structType samples.fields SBP)
           (Dynamic (AMap (<["type" := AString "sbp"]> (<["saved" := AString "yes"]> ∅))))
           [VString ""; VString ""; VBool false; VString ""]
           (wrapError
              ("failed to unmarshal to yoopayment.SBP: "
               ++ "json: cannot unmarshal string into Go struct field SBP.saved of type bool")
              (errorString
                 "json: cannot unmarshal string into Go struct field SBP.saved of type bool"))).
  vm_compute. reflexivity.
Defined.

Lemma variantName_inj V V' : variantName V = variantName V' -> V = V'.
Proof. destruct V, V'; cbn; intros H; try reflexivity; discriminate. Qed.

Lemma structType_inj declared V V' : structType declared V = structType declared V' -> V = V'.
Proof. intros H. apply variantName_inj. exact (f_equal ShortName H). Qed.

(** X11.  The variants are not interchangeable: a value of one variant, or a
    pointer to one (nil or not), is refused when another variant is asked
    for, with the unsupported-type error that names the variant held.  So
    [GetBasePaymentMethod] fails on a payment that holds a
    [PaymentMethodWithCard], whatever fields the two share. *)
Lemma variants_not_interchangeable (declared : Variant -> list Field) (V V' : Variant)
    (v : Struct) (q : option Struct) :
  V <> V' ->
  convertPaymentMethod (structType declared V) (Value (structType declared V') v)
  = Returns (zero (structType declared V),
             Some (errorString ("unsupported payment method type: yoopayment."
                                ++ variantName V')))
  /\ convertPaymentMethod (structType declared V) (Pointer (structType declared V') q)
     = Returns (zero (structType declared V),
                Some (errorString ("unsupported payment method type: *yoopayment."
                                   ++ variantName V'))).
Proof.
  intros Hne. unfold convertPaymentMethod. cbn [case_pointer case_value case_map].
  destruct (decide (structType declared V' = structType declared V)) as [E|_].
  - apply structType_inj in E. congruence.
  - split; reflexivity.
Qed.

Lemma variants_not_interchangeable_witness :
  GetBasePaymentMethod samples.fields
    (samples.payment
       (Value (structType samples.fields PaymentMethodWithCard)
              [VString "bank_card"; VString "pm-1"; VBool true; VString "Visa"]) ANil ANil)
  = Returns (zero (structType samples.fields BasePaymentMethod),
             Some (errorString ("unsupported payment method type: yoopayment."
                                ++ "PaymentMethodWithCard")))
  /\ GetBasePaymentMethod samples.fields
       (samples.payment (Pointer (structType samples.fields PaymentMethodWithCard) None) ANil ANil)
     = Returns (zero (structType samples.fields BasePaymentMethod),
                Some (errorString ("unsupported payment method type: *yoopayment."
                                   ++ "PaymentMethodWithCard"))).
Proof.
  apply (variants_not_interchangeable samples.fields BasePaymentMethod PaymentMethodWithCard
           [VString "bank_card"; VString "pm-1"; VBool true; VString "Visa"] None).
  discriminate.
Defined.

(** X12.  One value [json.Marshal] rejects (a NaN, an infinity), under any
    key of the mapping, also one that names no field of the requested type,
    makes the conversion fail: the zero value comes with the error [failed
    to marshal map] that wraps the error of a value of the mapping. *)
Lemma convertPaymentMethod_unencodable (T : StructType) (m : gmap string any) k v :
  m !! k = Some v -> encodable v = false ->
  exists e k' v',
    convertPaymentMethod T (Dynamic (AMap m))
    = Returns (zero T, Some (wrapError ("failed to marshal map: " ++ Error e) e))
    /\ m !! k' = Some v' /\ Marshal v' = Err e.
Proof.
  intros Hk Hv. unfold encodable in Hv. destruct (Marshal v) as [|e0] eqn:E; [discriminate|].
  destruct (Marshal_AMap_Err m k v e0 Hk E) as (e & He & k' & v' & Hk' & Hv').
  exists e, k', v'. split; [|split; assumption].
  unfold convertPaymentMethod. cbn [case_pointer case_value case_map]. rewrite He. reflexivity.
Qed.

Lemma convertPaymentMethod_unencodable_witness :
  exists e k' v',
    convertPaymentMethod (structType samples.fields SBP)
      (Dynamic (AMap (<["type" := AString "sbp"]> (<["amount" := AFloat64 S754_nan]> ∅))))
    = Returns (zero (structType samples.fields SBP),
               Some (wrapError ("failed to marshal map: " ++ Error e) e))
    /\ (<["type" := AString "sbp"]> (<["amount" := AFloat64 S754_nan]> ∅) : gmap string any) !! k'
       = Some v'
    /\ Marshal v' = Err e.
Proof.
  apply (convertPaymentMethod_unencodable (structType samples.fields SBP)
           (<["type" := AString "sbp"]> (<["amount" := AFloat64 S754_nan]> ∅))
           "amount" (AFloat64 S754_nan)).
  - vm_compute. reflexivity.
  - reflexivity.
Defined.

(** X13.  A member that selects a field of the requested type and holds a
    value of another kind (a string for a bool field, a number for a string
    field) makes the conversion fail, whatever else the mapping holds: the
    zero value comes with the error [failed to unmarshal to T] that wraps
    the type error of a field of [T]. *)
Lemma convertPaymentMethod_kind_mismatch (T : StructType) (m : gmap string any) k v j i f what :
  encodable (AMap m) = true ->
  m !! k = Some v -> Marshal v = Ok j ->
  findField (Fields T) (ToValid k) = Some (i, f) ->
  store (FKind f) j = Mismatch what ->
  exists what' f',
    convertPaymentMethod T (Dynamic (AMap m))
    = Returns (zero T,
               Some (wrapError ("failed to unmarshal to " ++ TypeName T ++ ": "
                                ++ Error (UnmarshalTypeError what' T f'))
                               (UnmarshalTypeError what' T f'))).
Proof.
  intros Henc Hk Hv Hf Hs. unfold encodable in Henc.
  destruct (Marshal (AMap m)) as [data|] eqn:E; [|discriminate].
  destruct (Marshal_AMap_Object m data E) as [ms ->].
  pose proof (Marshal_AMap_member m ms k v j E Hk Hv) as Hin.
  destruct (fold_mismatch T ms _ _ _ _ _ Hin Hf Hs (zero T, None)) as (what' & f' & Hsaved);
    [left; reflexivity|].
  exists what', f'.
  unfold convertPaymentMethod. cbn [case_pointer case_value case_map]. rewrite E.
  unfold Unmarshal. destruct (foldl _ _ ms) as [r saved]. cbn [snd] in Hsaved. subst saved.
  reflexivity.
Qed.

Lemma convertPaymentMethod_kind_mismatch_witness :
  exists what' f',
    convertPaymentMethod (structType samples.fields SBP)
      (Dynamic (AMap (<["type" := AString "sbp"]> (<["saved" := AString "yes"]> ∅))))
    = Returns (zero (structType samples.fields SBP),
               Some (wrapError
                       ("failed to unmarshal to " ++ TypeName (structType samples.fields SBP)
                        ++ ": "
                        ++ Error (UnmarshalTypeError what' (structType samples.fields SBP) f'))
                       (UnmarshalTypeError what' (structType samples.fields SBP) f'))).
Proof.
  apply (convertPaymentMethod_kind_mismatch (structType samples.fields SBP)
           (<["type" := AString "sbp"]> (<["saved" := AString "yes"]> ∅))
           "saved" (AString "yes") (json.String "yes") 2%nat
           {| Name := "saved"; FKind := KBool; GoType := "bool" |} "string").
  - vm_compute. reflexivity.
  - vm_compute. reflexivity.
  - vm_compute. reflexivity.
  - vm_compute. reflexivity.
  - reflexivity.
Defined.

(** X14.  A member whose key selects no field of the requested type, not
    even under case folding, is ignored: adding it to a shaped mapping, or
    changing its value, changes nothing in the result, as long as
    [json.Marshal] accepts its value. *)
Lemma convertPaymentMethod_ignores_unknown_key (T : StructType) (m : gmap string any) k v :
  wfStruct T = true -> shapedAs T m = true ->
  findField (Fields T) (ToValid k) = None -> encodable v = true ->
  convertPaymentMethod T (Dynamic (AMap (<[k := v]> m)))
  = convertPaymentMethod T (Dynamic (AMap m)).
Proof.
  intros Hwf Hsh Hk Hv.
  destruct (convert_mapping T m Hwf Hsh) as (r & Hr & Hlen & Hfields).
  rewrite Hr. apply convert_mapping_eq; [exact Hwf| |exact Hlen|].
  - apply shapedAs_insert; [exact Hsh|]. unfold shapedMember. rewrite Hk.
    unfold encodable in Hv. rewrite Hv. reflexivity.
  - intros i f Hi. rewrite (Hfields i f Hi). f_equal. unfold expected.
    rewrite lookup_insert_ne; [reflexivity|].
    intros ->. rewrite (wf_field_selects_itself T i f Hwf Hi) in Hk. discriminate.
Qed.

Lemma convertPaymentMethod_ignores_unknown_key_witness :
  convertPaymentMethod (structType samples.fields BasePaymentMethod)
    (Dynamic (AMap (<["paid" := ABool true]> samples.bank_card)))
  = convertPaymentMethod (structType samples.fields BasePaymentMethod)
      (Dynamic (AMap samples.bank_card)).
Proof.
  apply (convertPaymentMethod_ignores_unknown_key (structType samples.fields BasePaymentMethod)
           samples.bank_card "paid" (ABool true)).
  - vm_compute. reflexivity.
  - vm_compute. reflexivity.
  - vm_compute. reflexivity.
  - reflexivity.
Defined.

(** X15.  Round trip: the generic mapping that holds the fields of a struct
    value under their names is converted back to that struct value, with a
    nil error: [convertPaymentMethod] on what a JSON decode makes of the
    encoding of [v] agrees with [convertPaymentMethod] on [v] itself. *)
Lemma mapping_round_trip (T : StructType) (v : Struct) :
  wfStruct T = true -> wellTyped T v = true ->
  convertPaymentMethod T (Dynamic (AMap (asMapping T v))) = Returns (v, None)
  /\ convertPaymentMethod T (Dynamic (AMap (asMapping T v))) = convertPaymentMethod T (Value T v).
Proof.
  intros Hwf Hwt.
  destruct (wfStruct_names T Hwf) as [Hvalid Hnd].
  destruct (wellTyped_inv T v Hwt) as [Hlen Hfit].
  assert (H : convertPaymentMethod T (Dynamic (AMap (asMapping T v))) = Returns (v, None)).
  { apply convert_mapping_eq; [exact Hwf| |exact Hlen|].
    - unfold shapedAs. apply bool_decide_eq_true. intros k a Hk.
      apply (asMapping_lookup T v k a Hnd Hlen) in Hk as (i & f & x & Hi & Hv & -> & ->).
      unfold shapedMember. rewrite (wf_field_selects_itself T i f Hwf Hi).
      rewrite (Hfit i f x Hi Hv), bool_decide_eq_true_2 by reflexivity.
      destruct x; reflexivity.
    - intros i f Hi.
      destruct (v !! i) as [x|] eqn:Hv.
      + f_equal. unfold expected.
        rewrite (proj2 (asMapping_lookup T v (Name f) (toAny x) Hnd Hlen)) by eauto 10.
        destruct x; reflexivity.
      + apply lookup_ge_None in Hv. apply lookup_lt_Some in Hi. lia. }
  split; [exact H|]. rewrite H.
  unfold convertPaymentMethod. cbn [case_pointer case_value].
  destruct (decide (T = T)); [reflexivity|contradiction].
Qed.

Lemma mapping_round_trip_witness :
  convertPaymentMethod (structType samples.fields PaymentMethodWithCard)
    (Dynamic (AMap (asMapping (structType samples.fields PaymentMethodWithCard)
                              [VString "bank_card"; VString "pm-1"; VBool true; VString "Visa"])))
  = Returns ([VString "bank_card"; VString "pm-1"; VBool true; VString "Visa"], None)
  /\ convertPaymentMethod (structType samples.fields PaymentMethodWithCard)
       (Dynamic (AMap (asMapping (structType samples.fields PaymentMethodWithCard)
                                 [VString "bank_card"; VString "pm-1"; VBool true; VString "Visa"])))
     = convertPaymentMethod (structType samples.fields PaymentMethodWithCard)
         (Value (structType samples.fields PaymentMethodWithCard)
                [VString "bank_card"; VString "pm-1"; VBool true; VString "Visa"]).
Proof.
  apply (mapping_round_trip (structType samples.fields PaymentMethodWithCard)
           [VString "bank_card"; VString "pm-1"; VBool true; VString "Visa"]).
  - vm_compute. reflexivity.
  - vm_compute. reflexivity.
Defined.

(** X16.  A generic mapping shaped as the fast-payment-system variant whose
    [type] is [sbp] is accepted by [GetPaymentMethodSbp]: the error is nil,
    the struct holds the members of the mapping, and the call writes the
    line [ALE sbp] to the standard output. *)
Lemma GetPaymentMethodSbp_accepts (declared : Variant -> list Field)
    (p : Payment) (m : gmap string any) :
  wfStruct (structType declared SBP) = true ->
  PaymentMethod p = Dynamic (AMap m) ->
  shapedAs (structType declared SBP) m = true ->
  m !! "type" = Some (AString PaymentTypeSBP) ->
  exists sbp,
    GetPaymentMethodSbp declared p = (Returns (sbp, None), [Println "ALE" PaymentTypeSBP])
    /\ Type_ sbp = PaymentTypeSBP
    /\ forall i f, Fields (structType declared SBP) !! i = Some f ->
                   sbp !! i = Some (expected m f).
Proof.
  intros Hwf Hp Hsh Hm.
  destruct (convert_mapping _ m Hwf Hsh) as (sbp & Hr & Hlen & Hfields).
  assert (Ht : Type_ sbp = PaymentTypeSBP).
  { unfold Type_. rewrite (Hfields 0%nat Type_field eq_refl).
    unfold expected. cbn [Name Type_field]. rewrite Hm. reflexivity. }
  exists sbp. split; [|split; [exact Ht|exact Hfields]].
  unfold GetPaymentMethodSbp. rewrite Hp, Hr, Ht.
  destruct (decide (PaymentTypeSBP <> PaymentTypeSBP)); [contradiction|reflexivity].
Qed.

Lemma GetPaymentMethodSbp_accepts_witness :
  exists sbp,
    GetPaymentMethodSbp samples.fields
      (samples.payment
         (Dynamic (AMap (<["type" := AString "sbp"]> (<["id" := AString "pm-2"]> ∅)))) ANil ANil)
    = (Returns (sbp, None), [Println "ALE" PaymentTypeSBP])
    /\ Type_ sbp = PaymentTypeSBP
    /\ forall i f, Fields (structType samples.fields SBP) !! i = Some f ->
         sbp !! i
         = Some (expected (<["type" := AString "sbp"]> (<["id" := AString "pm-2"]> ∅)) f).
Proof.
  apply (GetPaymentMethodSbp_accepts samples.fields
           (samples.payment
              (Dynamic (AMap (<["type" := AString "sbp"]> (<["id" := AString "pm-2"]> ∅))))
              ANil ANil)
           (<["type" := AString "sbp"]> (<["id" := AString "pm-2"]> ∅))).
  - vm_compute. reflexivity.
  - reflexivity.
  - vm_compute. reflexivity.
  - vm_compute. reflexivity.
Defined.

(** X17.  A shaped mapping without the key [type] is decoded (the
    discriminator is then the empty string) and [GetPaymentMethodSbp]
    refuses it with the mismatch error that reports nothing after [got],
    after writing the line [ALE] to the standard output. *)
Lemma GetPaymentMethodSbp_missing_discriminator (declared : Variant -> list Field)
    (p : Payment) (m : gmap string any) :
  wfStruct (structType declared SBP) = true ->
  PaymentMethod p = Dynamic (AMap m) ->
  shapedAs (structType declared SBP) m = true ->
  m !! "type" = None ->
  exists sbp,
    GetPaymentMethodSbp declared p
    = (Returns (sbp, Some (errorString "payment method is not SBP, got ")),
       [Println "ALE" ""])
    /\ Type_ sbp = "".
Proof.
  intros Hwf Hp Hsh Hm.
  destruct (convert_mapping _ m Hwf Hsh) as (sbp & Hr & Hlen & Hfields).
  assert (Ht : Type_ sbp = "").
  { unfold Type_. rewrite (Hfields 0%nat Type_field eq_refl).
    unfold expected. cbn [Name Type_field]. rewrite Hm. reflexivity. }
  exists sbp. split; [|exact Ht].
  unfold GetPaymentMethodSbp. rewrite Hp, Hr, Ht.
  destruct (decide ("" <> PaymentTypeSBP)) as [_|Hn]; [reflexivity|].
  exfalso. apply Hn. discriminate.
Qed.

Lemma GetPaymentMethodSbp_missing_discriminator_witness :
  exists sbp,
    GetPaymentMethodSbp samples.fields
      (samples.payment (Dynamic (AMap (<["id" := AString "pm-2"]> ∅))) ANil ANil)
    = (Returns (sbp, Some (errorString "payment method is not SBP, got ")),
       [Println "ALE" ""])
    /\ Type_ sbp = "".
Proof.
  apply (GetPaymentMethodSbp_missing_discriminator samples.fields
           (samples.payment (Dynamic (AMap (<["id" := AString "pm-2"]> ∅))) ANil ANil)
           (<["id" := AString "pm-2"]> ∅)).
  - vm_compute. reflexivity.
  - reflexivity.
  - vm_compute. reflexivity.
  - vm_compute. reflexivity.
Defined.

(** X18.  The key of the discriminator is matched without regard to case: a
    mapping whose only key selects the first field under case folding
    ([TYPE], [Type]) is converted to a variant whose discriminator is the
    string the key holds, coerced to valid UTF-8. *)
Lemma discriminator_key_is_case_insensitive (declared : Variant -> list Field) (V : Variant)
    (k s : string) :
  selects (Fields (structType declared V)) 0 (ToValid k) = true ->
  exists r,
    convertPaymentMethod (structType declared V) (Dynamic (AMap {[k := AString s]}))
    = Returns (r, None)
    /\ Type_ r = ToValid s.
Proof.
  intros Hsel. unfold selects in Hsel.
  destruct (findField (Fields (structType declared V)) (ToValid k)) as [[i f]|] eqn:Ef;
    [|discriminate].
  apply Nat.eqb_eq in Hsel. subst i.
  pose proof (findField_lookup _ _ _ _ Ef) as Hf. cbn in Hf. injection Hf as <-.
  unfold convertPaymentMethod. cbn [case_pointer case_value case_map].
  rewrite Marshal_AMap_unfold, map_fmap_singleton, sortedEntries_singleton.
  cbn [List.map Marshal sequence bind fst snd].
  unfold Unmarshal. cbn [foldl]. unfold decodeMember. cbn [fst snd]. rewrite Ef.
  cbn [store Type_field FKind].
  eexists. split; [reflexivity|]. reflexivity.
Qed.

Lemma discriminator_key_is_case_insensitive_witness :
  exists r,
    convertPaymentMethod (structType samples.fields SBP) (Dynamic (AMap {["TYPE" := AString "sbp"]}))
    = Returns (r, None)
    /\ Type_ r = ToValid "sbp".
Proof.
  apply (discriminator_key_is_case_insensitive samples.fields SBP "TYPE" "sbp").
  vm_compute. reflexivity.
Defined.

End payment_facts.

(** ** yookassa: the idempotency key of a request *)

Module dispatch_facts.
Import yookassa.

Lemma length_append (s1 s2 : string) :
  String.length (s1 ++ s2) = (String.length s1 + String.length s2)%nat.
Proof.
  induction s1 as [|a s1 IH]; [reflexivity|].
  change (String.length (String a (s1 ++ s2)) = S (String.length s1 + String.length s2)).
  cbn [String.length]. rewrite IH. reflexivity.
Qed.

Lemma length_hex l : String.length (uuid.hex l) = (2 * length l)%nat.
Proof. induction l as [|b l IH]; cbn [uuid.hex String.length length]; [reflexivity|]. rewrite IH. lia. Qed.

(** A UUID is written with 36 characters. *)
Lemma length_String u : length u = 16%nat -> String.length (uuid.String_ u) = 36%nat.
Proof.
  intros Hu. unfold uuid.String_.
  rewrite !length_append, !length_hex, !length_take, !length_drop, Hu. reflexivity.
Qed.

(** With sixteen bytes of entropy [NewString] returns a token of 36
    characters and consumes these bytes. *)
Lemma NewString_returns rnd : (16 <= length rnd)%nat ->
  exists token, uuid.NewString rnd = (Returns token, drop 16 rnd)
                /\ String.length token = 36%nat.
Proof.
  intros H. unfold uuid.NewString, uuid.NewRandom.
  destruct (Nat.ltb_spec (length rnd) 16); [lia|].
  eexists. split; [reflexivity|].
  apply length_String. rewrite !length_insert, length_take. lia.
Qed.

Lemma NewString_panics rnd : (length rnd < 16)%nat ->
  uuid.NewString rnd
  = (Panics (if (length rnd =? 0)%nat then "EOF" else "unexpected EOF"), []).
Proof.
  intros H. unfold uuid.NewString, uuid.NewRandom.
  destruct (Nat.ltb_spec (length rnd) 16); [reflexivity|lia].
Qed.

Section Dispatch.

Context (lib : Library).

Lemma NewRequest_Ok method url body req :
  NewRequest lib method url body = Ok req -> http.Head req = ∅.
Proof.
  unfold NewRequest. destruct (negb _); [discriminate|].
  destruct (url_Parse lib url); [|discriminate].
  intros [= <-]. reflexivity.
Qed.

Lemma makeRequest_sends c method endpoint body params key w req0 token rnd :
  NewRequest lib method (BaseURL ++ endpoint) body = Ok req0 ->
  (if String.eqb key "" then uuid.NewString (rand lib w) else (Returns key, rand lib w))
  = (Returns token, rnd) ->
  exists req,
    sent lib (makeRequest lib (Some c) method endpoint body params key w).2 = (sent lib w ++ [req])%list
    /\ rand lib (makeRequest lib (Some c) method endpoint body params key w).2 = rnd
    /\ http.Head req = sent_header c method token.
Proof.
  intros Hreq Hkey. unfold makeRequest. rewrite Hreq, Hkey. cbn [rand sent].
  pose proof (NewRequest_Ok _ _ _ _ Hreq) as Hhead.
  unfold sent_header, http.SetBasicAuth, http.Header_Set.
  change (http.CanonicalMIMEHeaderKey "Authorization") with "Authorization".
  change (http.CanonicalMIMEHeaderKey "Content-Type") with "Content-Type".
  change (http.CanonicalMIMEHeaderKey "Idempotence-Key") with "Idempotence-Key".
  destruct (String.eqb method http.MethodPost); destruct params as [params|];
    match goal with |- context [Do lib ?r] => destruct (Do lib r) end;
    cbn [snd sent rand http.Head http.with_Header http.with_URL];
    eexists; (split; [reflexivity|split; [reflexivity|]]);
    cbn [http.Head http.with_Header http.with_URL]; rewrite Hhead; reflexivity.
Qed.

Lemma sent_header_has c method token key :
  key = "Idempotence-Key" \/ key = "Content-Type" ->
  http.Header_has (sent_header c method token) key = String.eqb method http.MethodPost.
Proof.
  unfold http.Header_has, sent_header.
  intros [-> | ->].
  - change (http.CanonicalMIMEHeaderKey "Idempotence-Key") with "Idempotence-Key".
    rewrite lookup_insert_ne by discriminate.
    destruct (String.eqb method http.MethodPost).
    + rewrite lookup_insert_eq. apply bool_decide_eq_true. eauto.
    + rewrite lookup_empty. apply bool_decide_eq_false. intros [x Hx]. discriminate.
  - change (http.CanonicalMIMEHeaderKey "Content-Type") with "Content-Type".
    rewrite lookup_insert_ne by discriminate.
    destruct (String.eqb method http.MethodPost).
    + rewrite lookup_insert_ne by discriminate. rewrite lookup_insert_eq.
      apply bool_decide_eq_true. eauto.
    + rewrite lookup_empty. apply bool_decide_eq_false. intros [x Hx]. discriminate.
Qed.

(** C2, as the code has it.  Every request the dispatcher hands to the
    transport carries the headers [Content-Type: application/json] and
    [Idempotence-Key] if and only if its method is POST; with any other
    method, read-only or not, it carries neither. *)
Theorem headers_iff_POST c method endpoint body params key w req0 :
  NewRequest lib method (BaseURL ++ endpoint) body = Ok req0 ->
  key <> "" \/ (16 <= length (rand lib w))%nat ->
  exists req,
    sent lib (makeRequest lib (Some c) method endpoint body params key w).2 = (sent lib w ++ [req])%list
    /\ (http.Header_has (http.Head req) "Idempotence-Key" = true <-> method = http.MethodPost)
    /\ (http.Header_has (http.Head req) "Content-Type" = true <-> method = http.MethodPost)
    /\ (method = http.MethodPost ->
        http.Header_Get (http.Head req) "Content-Type" = "application/json").
Proof.
  intros Hreq Hkey.
  assert (exists token rnd,
    (if String.eqb key "" then uuid.NewString (rand lib w) else (Returns key, rand lib w))
    = (Returns token, rnd)) as (token & rnd & Hgen).
  { destruct (String.eqb_spec key "") as [->|Hne].
    - destruct Hkey as [Hk|Hk]; [contradiction|].
      destruct (NewString_returns _ Hk) as (token & Ht & _). eauto.
    - eauto. }
  destruct (makeRequest_sends c method endpoint body params key w req0 token rnd Hreq Hgen)
    as (req & Hsent & _ & Hhead).
  exists req. split; [exact Hsent|]. rewrite Hhead.
  rewrite !sent_header_has by auto. rewrite String.eqb_eq.
  split; [reflexivity|]. split; [reflexivity|].
  intros ->. reflexivity.
Qed.

(** C3, as the code has it.  A key that is not empty is attached as it is to
    a request with the method POST; with the empty key a token is generated
    from sixteen fresh bytes of the random source, it has 36 characters and
    it is the one attached to a request with the method POST, so the header
    is never empty.  A request with any other method carries no
    idempotency header, although with the empty key the token is generated
    all the same.  When the key is empty and the random source fails, the
    call panics with the error of the read ([EOF] on an empty source,
    [unexpected EOF] otherwise) and nothing is sent. *)
Theorem idempotency_key_attached c method endpoint body params key w req0 :
  NewRequest lib method (BaseURL ++ endpoint) body = Ok req0 ->
  (key <> "" ->
   exists req,
     sent lib (makeRequest lib (Some c) method endpoint body params key w).2
     = (sent lib w ++ [req])%list
     /\ http.Head req !! "Idempotence-Key"
        = if String.eqb method http.MethodPost then Some [key] else None)
  /\ (key = "" -> (16 <= length (rand lib w))%nat ->
      exists req token,
        uuid.NewString (rand lib w) = (Returns token, drop 16 (rand lib w))
        /\ String.length token = 36%nat
        /\ sent lib (makeRequest lib (Some c) method endpoint body params key w).2
           = (sent lib w ++ [req])%list
        /\ rand lib (makeRequest lib (Some c) method endpoint body params key w).2
           = drop 16 (rand lib w)
        /\ http.Head req !! "Idempotence-Key"
           = if String.eqb method http.MethodPost then Some [token] else None)
  /\ (key = "" -> (length (rand lib w) < 16)%nat ->
      makeRequest lib (Some c) method endpoint body params key w
      = (Panics (if (length (rand lib w) =? 0)%nat then "EOF" else "unexpected EOF"),
         {| rand := []; sent := sent lib w |})).
Proof.
  intros Hreq.
  assert (Hlook : forall token,
           sent_header c method token !! "Idempotence-Key"
           = if String.eqb method http.MethodPost then Some [token] else None).
  { intros token. unfold sent_header.
    rewrite lookup_insert_ne by discriminate.
    destruct (String.eqb method http.MethodPost); [apply lookup_insert_eq|apply lookup_empty]. }
  split; [|split].
  - intros Hne.
    destruct (makeRequest_sends c method endpoint body params key w req0 key
                (rand lib w) Hreq) as (req & Hsent & _ & Hhead).
    { destruct (String.eqb_spec key ""); [contradiction|reflexivity]. }
    exists req. split; [exact Hsent|]. rewrite Hhead. apply Hlook.
  - intros -> Hlen.
    destruct (NewString_returns _ Hlen) as (token & Hgen & Htok).
    destruct (makeRequest_sends c method endpoint body params "" w req0 token
                (drop 16 (rand lib w)) Hreq) as (req & Hsent & Hrand & Hhead).
    { cbn [String.eqb]. exact Hgen. }
    exists req, token. repeat split; try assumption. rewrite Hhead. apply Hlook.
  - intros -> Hlen. unfold makeRequest. rewrite Hreq. cbn [String.eqb].
    rewrite (NewString_panics _ Hlen). reflexivity.
Qed.

(** With a key that is not empty the dispatcher does not panic. *)
Lemma makeRequest_returns c method endpoint body params key w :
  key <> "" -> exists r, (makeRequest lib (Some c) method endpoint body params key w).1 = Returns r.
Proof.
  intros Hne. unfold makeRequest.
  destruct (NewRequest lib method (BaseURL ++ endpoint) body); [|eauto].
  destruct (String.eqb_spec key ""); [contradiction|].
  match goal with |- context [Do lib ?r] => destruct (Do lib r) end; eauto.
Qed.

(** *** Further guarantees of the dispatcher *)

(** The token the dispatcher works with: the key it is given, or a token
    made of sixteen bytes of the random source. *)
Lemma token_available key (w : World lib) :
  key <> "" \/ (16 <= length (rand lib w))%nat ->
  exists token,
    (if String.eqb key "" then uuid.NewString (rand lib w) else (Returns key, rand lib w))
    = (Returns token, if String.eqb key "" then drop 16 (rand lib w) else rand lib w).
Proof.
  intros Hkey. destruct (String.eqb_spec key "") as [->|Hne].
  - destruct Hkey as [Hk|Hk]; [contradiction|].
    destruct (NewString_returns _ Hk) as (token & Ht & _). eauto.
  - eauto.
Qed.

Lemma addParams_lookup q params name :
  addParams lib q params !! name
  = match params !! name with
    | Some v => Some (default [] (q !! name) ++ [Sprint lib v])%list
    | None => q !! name
    end.
Proof.
  unfold addParams. revert name.
  apply (map_fold_weak_ind (fun r (m : gmap string any) => forall name,
           r !! name = match m !! name with
                       | Some v => Some (default [] (q !! name) ++ [Sprint lib v])%list
                       | None => q !! name
                       end)).
  - intros name. rewrite lookup_empty. reflexivity.
  - intros i x m r Hi IH name. destruct (decide (i = name)) as [->|Hne].
    + rewrite !lookup_insert_eq, IH, Hi. reflexivity.
    + rewrite !lookup_insert_ne by assumption. apply IH.
Qed.

Lemma foldr_addParam_lookup (l : list (string * any)) (q : gmap string (list string)) name :
  NoDup l.*1 ->
  foldr (fun kv q => <[kv.1 := (default [] (q !! kv.1) ++ [Sprint lib kv.2])%list]> q) q l
  !! name
  = match (list_to_map l : gmap string any) !! name with
    | Some v => Some (default [] (q !! name) ++ [Sprint lib v])%list
    | None => q !! name
    end.
Proof.
  induction l as [|[k v] l IH]; intros Hnd.
  - cbn. rewrite lookup_empty. reflexivity.
  - cbn [fmap list_fmap fst] in Hnd. apply NoDup_cons in Hnd as [Hk Hnd].
    cbn [foldr list_to_map fst snd].
    destruct (decide (k = name)) as [->|Hne].
    + rewrite !lookup_insert_eq. rewrite (IH Hnd).
      rewrite (proj1 (not_elem_of_list_to_map l name) Hk). reflexivity.
    + rewrite !lookup_insert_ne by assumption. apply IH, Hnd.
Qed.

(** X19.  The outcomes of [makeRequest], whatever its arguments: a response
    comes with a nil error and is the answer of the transport to the one
    request the call has sent; an error comes with a nil response and is
    either the error of [http.NewRequest], nothing being sent and the world
    left as it was, or the error of the transport for the one request sent;
    a response and an error never come together, nor a nil response with a
    nil error; and a call that panics has sent nothing. *)
Lemma makeRequest_outcomes c method endpoint body params key w :
  match makeRequest lib c method endpoint body params key w with
  | (Returns (Some resp, None), w') =>
    exists req, sent lib w' = (sent lib w ++ [req])%list /\ Do lib req = Ok resp
  | (Returns (None, Some e), w') =>
    (NewRequest lib method (BaseURL ++ endpoint) body = Err e /\ w' = w)
    \/ exists req, sent lib w' = (sent lib w ++ [req])%list /\ Do lib req = Err e
  | (Returns _, _) => False
  | (Panics _, w') => sent lib w' = sent lib w
  end.
Proof.
  unfold makeRequest.
  destruct (NewRequest lib method (BaseURL ++ endpoint) body) as [req0|e]; [|left; split; reflexivity].
  destruct (if String.eqb key "" then uuid.NewString (rand lib w) else (Returns key, rand lib w))
    as [[token|msg] rnd]; [|reflexivity].
  destruct c as [c|]; [|reflexivity].
  cbn [rand sent].
  match goal with |- context [Do lib ?r] => destruct (Do lib r) eqn:E end.
  - eexists. split; [reflexivity|exact E].
  - right. eexists. split; [reflexivity|exact E].
Qed.

(** X20.  A method that is not an HTTP token is refused before anything
    else happens: the error of [http.NewRequest] is returned with a nil
    response, no request is sent, no token is generated, and the client is
    not read (a nil client does not panic). *)
Lemma makeRequest_rejects_invalid_method c method endpoint body params key w :
  http.validMethod (if String.eqb method "" then "GET" else method) = false ->
  makeRequest lib c method endpoint body params key w
  = (Returns (None, Some (errorString ("net/http: invalid method " ++ Quote lib method))), w).
Proof.
  intros Hm. unfold makeRequest, NewRequest.
  destruct (String.eqb_spec method "") as [->|_]; [discriminate|].
  rewrite Hm. reflexivity.
Qed.

(** X21.  With a valid method, a URL that parses and a token at hand, the
    call sends exactly one request and returns what the transport answers,
    as it is.  The request has the method given (GET for the empty one) and
    the body given, and goes to [BaseURL] followed by the endpoint; with
    parameters, its query is the query of that URL with the parameters
    added. *)
Lemma makeRequest_sends_one_request c method endpoint body params key w u :
  http.validMethod (if String.eqb method "" then "GET" else method) = true ->
  url_Parse lib (BaseURL ++ endpoint) = Ok u ->
  key <> "" \/ (16 <= length (rand lib w))%nat ->
  exists req w',
    makeRequest lib (Some c) method endpoint body params key w
    = (Returns match Do lib req with
               | Ok resp => (Some resp, None)
               | Err err => (None, Some err)
               end, w')
    /\ sent lib w' = (sent lib w ++ [req])%list
    /\ http.Method req = (if String.eqb method "" then "GET" else method)
    /\ http.Body req = body
    /\ http.URL req = match params with
                      | None => u
                      | Some params =>
                        set_RawQuery lib u (Encode lib (addParams lib (Query lib u) params))
                      end.
Proof.
  intros Hm Hu Hkey. unfold makeRequest, NewRequest. rewrite Hm, Hu. cbn [negb].
  destruct (token_available key w Hkey) as (token & ->). cbn [rand sent].
  destruct (String.eqb method http.MethodPost); destruct params as [params|];
    match goal with |- context [Do lib ?r] => exists r; destruct (Do lib r) end;
    eexists; (split; [reflexivity|]); repeat split.
Qed.

(** X22.  Every request handed to the transport carries the Basic
    authentication of the client, whatever its method: the header
    [Authorization] holds one value, [Basic] followed by the base64 text of
    the account id, a colon and the secret key. *)
Lemma makeRequest_authenticates c method endpoint body params key w req0 :
  NewRequest lib method (BaseURL ++ endpoint) body = Ok req0 ->
  key <> "" \/ (16 <= length (rand lib w))%nat ->
  exists req,
    sent lib (makeRequest lib (Some c) method endpoint body params key w).2
    = (sent lib w ++ [req])%list
    /\ http.Head req !! "Authorization"
       = Some ["Basic " ++ http.base64 (bytes (accountId c ++ ":" ++ secretKey c))].
Proof.
  intros Hreq Hkey.
  destruct (token_available key w Hkey) as (token & Hgen).
  destruct (makeRequest_sends c method endpoint body params key w req0 token _ Hreq Hgen)
    as (req & Hsent & _ & Hhead).
  exists req. split; [exact Hsent|]. rewrite Hhead.
  unfold sent_header. apply lookup_insert_eq.
Qed.

(** X23.  What the call takes from the random source, for every method and
    every client: nothing when it is given a key; sixteen bytes when the key
    is empty, also for the methods that do not carry the token (GET,
    DELETE); and when the key is empty and the source fails, the call
    panics before anything is sent, whatever the method. *)
Lemma makeRequest_entropy c method endpoint body params key w req0 :
  NewRequest lib method (BaseURL ++ endpoint) body = Ok req0 ->
  (key <> "" -> rand lib (makeRequest lib c method endpoint body params key w).2 = rand lib w)
  /\ (key = "" -> (16 <= length (rand lib w))%nat ->
      rand lib (makeRequest lib c method endpoint body params key w).2 = drop 16 (rand lib w))
  /\ (key = "" -> (length (rand lib w) < 16)%nat ->
      exists msg w',
        makeRequest lib c method endpoint body params key w = (Panics msg, w')
        /\ sent lib w' = sent lib w).
Proof.
  intros Hreq. split; [|split].
  - intros Hne. unfold makeRequest. rewrite Hreq.
    destruct (String.eqb_spec key ""); [contradiction|].
    destruct c as [c|]; [|reflexivity]. cbn [rand sent].
    match goal with |- context [Do lib ?r] => destruct (Do lib r) end; reflexivity.
  - intros -> Hlen. unfold makeRequest. rewrite Hreq. cbn [String.eqb].
    destruct (NewString_returns _ Hlen) as (token & -> & _).
    destruct c as [c|]; [|reflexivity]. cbn [rand sent].
    match goal with |- context [Do lib ?r] => destruct (Do lib r) end; reflexivity.
  - intros -> Hlen. unfold makeRequest. rewrite Hreq. cbn [String.eqb].
    rewrite (NewString_panics _ Hlen). eexists _, _. split; reflexivity.
Qed.

(** X24.  On a nil client (the package variable [YkClient] before
    [InitClient] is called) a call with a well-formed request panics with a
    nil pointer dereference when it reads the account id, and nothing is
    sent. *)
Lemma makeRequest_nil_client method endpoint body params key w req0 :
  NewRequest lib method (BaseURL ++ endpoint) body = Ok req0 ->
  key <> "" \/ (16 <= length (rand lib w))%nat ->
  exists w',
    makeRequest lib None method endpoint body params key w
    = (Panics "runtime error: invalid memory address or nil pointer dereference", w')
    /\ sent lib w' = sent lib w.
Proof.
  intros Hreq Hkey. unfold makeRequest. rewrite Hreq.
  destruct (token_available key w Hkey) as (token & ->).
  eexists. split; reflexivity.
Qed.

(** X25.  The query built from the parameters does not depend on the order
    in which the map is iterated: adding the entries in any order gives the
    query of [addParams], in which every parameter is appended, formatted,
    to the values its name already has in the URL, and every other name
    keeps its values. *)
Lemma addParams_any_order q params (l : list (string * any)) :
  l ≡ₚ map_to_list params ->
  foldr (fun kv q => <[kv.1 := (default [] (q !! kv.1) ++ [Sprint lib kv.2])%list]> q) q l
  = addParams lib q params
  /\ forall name,
      addParams lib q params !! name
      = match params !! name with
        | Some v => Some (default [] (q !! name) ++ [Sprint lib v])%list
        | None => q !! name
        end.
Proof.
  intros Hl. split; [|apply addParams_lookup].
  apply map_eq. intros name. rewrite addParams_lookup.
  assert (Hnd : NoDup l.*1).
  { rewrite Hl. apply NoDup_fst_map_to_list. }
  rewrite foldr_addParam_lookup by exact Hnd.
  rewrite (list_to_map_proper l (map_to_list params) Hnd Hl), list_to_map_to_list. reflexivity.
Qed.

End Dispatch.

Lemma headers_iff_POST_witness :
  exists req,
    sent samples.library
      (makeRequest samples.library (Some samples.shop) http.MethodPost "payments" [] None ""
                   samples.world).2 = ([] ++ [req])%list
    /\ (http.Header_has (http.Head req) "Idempotence-Key" = true
        <-> http.MethodPost = http.MethodPost)
    /\ (http.Header_has (http.Head req) "Content-Type" = true
        <-> http.MethodPost = http.MethodPost)
    /\ (http.MethodPost = http.MethodPost ->
        http.Header_Get (http.Head req) "Content-Type" = "application/json").
Proof.
  apply (headers_iff_POST samples.library samples.shop http.MethodPost "payments" [] None ""
           samples.world
           {| http.Method := "POST"; http.URL := ("https://api.yookassa.ru/v3/payments", "");
              http.Head := ∅; http.Body := [] |}).
  - reflexivity.
  - right. cbn. lia.
Defined.

(** C2, as the claim has it, fails: DELETE is a state-mutating method, and
    the request the dispatcher sends for it carries neither the idempotency
    key it was given nor the content type. *)
Lemma DELETE_carries_no_idempotency_key :
  http.stateMutating http.MethodDelete = true
  /\ exists req,
      sent samples.library
        (makeRequest samples.library (Some samples.shop) http.MethodDelete "webhooks/wh-1" [] None
                     "key-1" samples.world).2 = [req]
      /\ http.Method req = http.MethodDelete
      /\ http.Header_has (http.Head req) "Idempotence-Key" = false
      /\ http.Header_has (http.Head req) "Content-Type" = false.
Proof.
  split; [reflexivity|].
  eexists. split; [vm_compute; reflexivity|].
  split; [reflexivity|]. split; vm_compute; reflexivity.
Qed.

(** C3, as the claim has it, fails for a mutating method other than POST:
    with the empty key a DELETE request makes the dispatcher generate a
    token (sixteen bytes of the random source are consumed), but the token
    is not attached: the request goes out without the idempotency header. *)
Lemma DELETE_generates_a_token_it_does_not_attach :
  http.stateMutating http.MethodDelete = true
  /\ exists req,
      makeRequest samples.library (Some samples.shop) http.MethodDelete "webhooks/wh-1" [] None ""
                  samples.world
      = (Returns (Some tt, None), {| rand := [0x00]; sent := [req] |})
      /\ uuid.NewString (rand samples.library samples.world)
         = (Returns "10325476-98ba-4cfe-8123-456789abcdef", [0x00])
      /\ http.Header_has (http.Head req) "Idempotence-Key" = false.
Proof.
  split; [reflexivity|].
  eexists. split; [vm_compute; reflexivity|].
  split; vm_compute; reflexivity.
Qed.

Lemma idempotency_key_attached_witness :
  ("key-1" <> "" ->
   exists req,
     sent samples.library
       (makeRequest samples.library (Some samples.shop) http.MethodPost "payments" [] None "key-1"
                    samples.world).2 = ([] ++ [req])%list
     /\ http.Head req !! "Idempotence-Key" = Some ["key-1"])
  /\ (exists req,
      sent samples.library
        (makeRequest samples.library (Some samples.shop) http.MethodPost "payments" [] None ""
                     samples.world).2 = [req]
      /\ http.Head req !! "Idempotence-Key" = Some ["10325476-98ba-4cfe-8123-456789abcdef"])
  /\ (exists req,
      sent samples.library
        (makeRequest samples.library (Some samples.shop) http.MethodPut "payments/pm-1" [] None ""
                     samples.world).2 = [req]
      /\ rand samples.library
           (makeRequest samples.library (Some samples.shop) http.MethodPut "payments/pm-1" [] None ""
                        samples.world).2 = [0x00]
      /\ http.Head req !! "Idempotence-Key" = None).
Proof.
  split; [|split].
  - apply (idempotency_key_attached samples.library samples.shop http.MethodPost "payments" []
             None "key-1" samples.world
             {| http.Method := "POST"; http.URL := ("https://api.yookassa.ru/v3/payments", "");
                http.Head := ∅; http.Body := [] |} eq_refl).
  - destruct (proj1 (proj2 (idempotency_key_attached samples.library samples.shop
             http.MethodPost "payments" [] None "" samples.world
             {| http.Method := "POST"; http.URL := ("https://api.yookassa.ru/v3/payments", "");
                http.Head := ∅; http.Body := [] |} eq_refl)) eq_refl)
      as (req & token & Hgen & _ & Hsent & _ & Hhead).
    { cbn. lia. }
    exists req. split; [exact Hsent|].
    vm_compute in Hgen. injection Hgen as <-. exact Hhead.
  - destruct (proj1 (proj2 (idempotency_key_attached samples.library samples.shop
             http.MethodPut "payments/pm-1" [] None "" samples.world
             {| http.Method := "PUT";
                http.URL := ("https://api.yookassa.ru/v3/payments/pm-1", "");
                http.Head := ∅; http.Body := [] |} eq_refl)) eq_refl)
      as (req & token & _ & _ & Hsent & Hrand & Hhead).
    { cbn. lia. }
    exists req. split; [exact Hsent|]. split; [exact Hrand|exact Hhead].
Defined.

Lemma makeRequest_rejects_invalid_method_witness :
  makeRequest samples.library None "PO ST" "payments" [] None "" samples.world
  = (Returns (None, Some (errorString ("net/http: invalid method " ++ "PO ST"))), samples.world).
Proof.
  apply (makeRequest_rejects_invalid_method samples.library None "PO ST" "payments" [] None ""
           samples.world).
  vm_compute. reflexivity.
Defined.

Lemma makeRequest_sends_one_request_witness :
  exists req w',
    makeRequest samples.library (Some samples.shop) "" "payments" []
                (Some {["limit" := AString "10"]}) "key-1" samples.world
    = (Returns match Do samples.library req with
               | Ok resp => (Some resp, None)
               | Err err => (None, Some err)
               end, w')
    /\ sent samples.library w' = (sent samples.library samples.world ++ [req])%list
    /\ http.Method req = "GET"
    /\ http.Body req = []
    /\ http.URL req
       = set_RawQuery samples.library ("https://api.yookassa.ru/v3/payments", "")
           (Encode samples.library
              (addParams samples.library
                 (Query samples.library ("https://api.yookassa.ru/v3/payments", ""))
                 {["limit" := AString "10"]})).
Proof.
  apply (makeRequest_sends_one_request samples.library samples.shop "" "payments" []
           (Some {["limit" := AString "10"]}) "key-1" samples.world
           ("https://api.yookassa.ru/v3/payments", "")).
  - vm_compute. reflexivity.
  - reflexivity.
  - left. discriminate.
Defined.

Lemma makeRequest_authenticates_witness :
  exists req,
    sent samples.library
      (makeRequest samples.library (Some samples.shop) http.MethodGet "payments/pm-1" [] None
                   "" samples.world).2 = ([] ++ [req])%list
    /\ http.Head req !! "Authorization"
       = Some ["Basic " ++ http.base64 (bytes ("shop" ++ ":" ++ "secret"))].
Proof.
  apply (makeRequest_authenticates samples.library samples.shop http.MethodGet "payments/pm-1"
           [] None "" samples.world
           {| http.Method := "GET"; http.URL := ("https://api.yookassa.ru/v3/payments/pm-1", "");
              http.Head := ∅; http.Body := [] |}).
  - reflexivity.
  - right. cbn. lia.
Defined.

Lemma makeRequest_entropy_witness :
  ("" <> "" ->
   rand samples.library
     (makeRequest samples.library (Some samples.shop) http.MethodGet "payments/pm-1" [] None
                  "" samples.world).2 = rand samples.library samples.world)
  /\ ("" = "" -> (16 <= length (rand samples.library samples.world))%nat ->
      rand samples.library
        (makeRequest samples.library (Some samples.shop) http.MethodGet "payments/pm-1" [] None
                     "" samples.world).2 = drop 16 (rand samples.library samples.world))
  /\ ("" = "" -> (length (rand samples.library samples.world) < 16)%nat ->
      exists msg w',
        makeRequest samples.library (Some samples.shop) http.MethodGet "payments/pm-1" [] None
                    "" samples.world = (Panics msg, w')
        /\ sent samples.library w' = sent samples.library samples.world).
Proof.
  apply (makeRequest_entropy samples.library (Some samples.shop) http.MethodGet "payments/pm-1"
           [] None "" samples.world
           {| http.Method := "GET"; http.URL := ("https://api.yookassa.ru/v3/payments/pm-1", "");
              http.Head := ∅; http.Body := [] |}).
  reflexivity.
Defined.

Lemma makeRequest_nil_client_witness :
  exists w',
    makeRequest samples.library None http.MethodPost "payments" [] None "key-1" samples.world
    = (Panics "runtime error: invalid memory address or nil pointer dereference", w')
    /\ sent samples.library w' = sent samples.library samples.world.
Proof.
  apply (makeRequest_nil_client samples.library http.MethodPost "payments" [] None "key-1"
           samples.world
           {| http.Method := "POST"; http.URL := ("https://api.yookassa.ru/v3/payments", "");
              http.Head := ∅; http.Body := [] |}).
  - reflexivity.
  - left. discriminate.
Defined.

Lemma addParams_any_order_witness :
  foldr (fun kv q => <[kv.1 := (default [] (q !! kv.1) ++ [Sprint samples.library kv.2])%list]> q)
        (∅ : gmap string (list string))
        [("limit", AString "10"); ("cursor", AString "c-1")]
  = addParams samples.library ∅ (<["cursor" := AString "c-1"]> {["limit" := AString "10"]})
  /\ forall name,
      addParams samples.library ∅ (<["cursor" := AString "c-1"]> {["limit" := AString "10"]})
      !! name
      = match (<["cursor" := AString "c-1"]> {["limit" := AString "10"]} : gmap string any)
              !! name with
        | Some v => Some (default [] ((∅ : gmap string (list string)) !! name)
                          ++ [Sprint samples.library v])%list
        | None => (∅ : gmap string (list string)) !! name
        end.
Proof.
  apply (addParams_any_order samples.library ∅
           (<["cursor" := AString "c-1"]> {["limit" := AString "10"]})
           [("limit", AString "10"); ("cursor", AString "c-1")]).
  vm_compute. first [reflexivity | apply perm_swap].
Defined.

End dispatch_facts.

(** ** yookassa: what the test fixes of the operation handler *)

Module handler_facts.
Import yookassa.

Lemma app_nil_4 {A} (l1 l2 l3 l4 : list A) :
  (l1 ++ l2 ++ l3 ++ l4)%list = [] -> l1 = [] /\ l2 = [] /\ l3 = [] /\ l4 = [].
Proof.
  intros H. apply app_eq_nil in H as [H1 H]. apply app_eq_nil in H as [H2 H].
  apply app_eq_nil in H as [H3 H4]. auto.
Qed.

Lemma with_idempotencyKey_same (x : PaymentHandler) :
  with_idempotencyKey x (idempotencyKey x) = x.
Proof. destruct x. reflexivity. Qed.

Section Handler.

Variable NewPaymentHandler : option Client -> Heap -> nat * Heap.
Variable SetIdempotencyKey : nat -> string -> Heap -> nat * Heap.


End Handler.



End handler_facts.
